(** * WildCogs chess cog: a shallow embedding of chessgame/chessgame.py

    The cog keeps, per Discord channel, a jsonpickle-encoded dictionary from
    game names to [Game] objects and exposes the commands [start_game],
    [move_piece], [resign], [claim_draw] and [by_agreement] on it.

    - [Discord]   : the part of discord.py the commands touch (members,
                    embeds, the messages a command sends);
    - [Game]      : the interface of the [Game] class the cog calls into;
    - [ChessGame] : the cog itself, command by command;
    - [Engine]    : the engine behind [Game], which lives in chessgame/game.py;
    - [Reference] : a small concrete rule set and pickle, used to run the
                    development on concrete inputs. *)

From Stdlib Require Import Ascii String.
From stdpp Require Import base numbers option list strings pretty countable gmap.

(** ** Python strings *)

(** The two characters the cog's messages need that a literal cannot hold. *)
Definition LF : string := String "010"%char EmptyString.
Definition DQUOTE : string := String "034"%char EmptyString.

(** Truthiness of a [str]: every string but the empty one. *)
Definition truthy (s : string) : bool :=
  match s with
  | EmptyString => false
  | String _ _ => true
  end.

(** [str(None)] and [str(s)], as [discord.Embed.add_field] applies them. *)
Definition str_opt (s : option string) : string := default "None" s.

(** ** discord.py *)

Module Discord.

(** A guild member; [==] on members compares the ids. *)
Record Member := { id : N; name : string }.

Definition member_eq (a b : Member) : bool := (id a =? id b)%N.

Record Field := { field_name : string; field_value : string; inline : bool }.

Record Embed := {
  title : string;
  description : string;
  fields : list Field;
  image : option string
}.

Definition new_embed (title description : string) : Embed :=
  {| title := title; description := description; fields := []; image := None |}.

Definition add_field_inline (name value : string) (inline : bool) (e : Embed) : Embed :=
  {| title := title e; description := description e;
     fields := fields e ++ [ {| field_name := name; field_value := value; inline := inline |} ];
     image := image e |}.

Definition add_field (name value : string) (e : Embed) : Embed :=
  add_field_inline name value true e.

Definition set_image (url : string) (e : Embed) : Embed :=
  {| title := title e; description := description e; fields := fields e;
     image := Some url |}.

(** What a command does to the channel, in order. *)
Inductive Output :=
| SendText (content : string)
| SendEmbed (embed : Embed)
| SendFile (embed : Embed) (filename : string) (data : string)
| EditEmbed (embed : Embed)
| ClearReactions.

(** The invocation context: who called, where, and the guild roster
    ([ctx.guild.get_member] is a lookup by id that may find nobody). *)
Record Context := {
  author : Member;
  channel : N;
  guild : gmap N string
}.

Definition get_member (ctx : Context) (member_id : N) : option Member :=
  (λ n, {| id := member_id; name := n |}) <$> guild ctx !! member_id.

(** [player == ctx.author] where [player] came from [get_member]. *)
Definition is_author (ctx : Context) (player : option Member) : bool :=
  match player with
  | Some m => member_eq m (author ctx)
  | None => false
  end.

Definition has_field (name : string) (e : Embed) : bool :=
  existsb (λ f, String.eqb (field_name f) name) (fields e).

End Discord.

(** ** Outcome of a command *)

Inductive Exception := TypeError | AttributeError.

Inductive Result :=
| Returned (sent : list Discord.Output)
| Raised (e : Exception) (sent : list Discord.Output)
| Diverged.

(** ** The [Game] class, as the cog uses it

  [init] and [move_piece] raise [ValueError] ([None] here).  [move_piece]
  mutates the object it is called on: the second component is the object
  after the call, whether the call raised or not. *)

Module Game.

Class API (T : Type) := {
  init : N → N → option string → option T;
  player_white_id : T → N;
  player_black_id : T → N;
  type : T → string;
  total_moves : T → nat;
  order : T → string * N * N;
  move_piece : T → string → option (bool * string) * T;
  can_claim_draw : T → bool;
  can_claim_fifty_moves : T → bool;
  can_claim_threefold_repetition : T → bool;
  get_board_image : T → string
}.

End Game.

(** ** jsonpickle *)

Module jsonpickle.

Class Pickle (T : Type) := {
  encode : gmap string T → string;
  decode : string → gmap string T
}.

(** What the cog relies on: an encoded dictionary decodes to itself, and
    its encoding is never the empty string. *)
Definition round_trips `{Pickle T} : Prop :=
  ∀ games : gmap string T, decode (encode games) = games.

Definition never_empty `{Pickle T} : Prop :=
  ∀ games : gmap string T, truthy (encode games) = true.

End jsonpickle.

(** ** The cog *)

Module ChessGame.
Import Discord.

Definition _fifty_moves : string := "Fifty moves".
Definition _threefold_repetition : string := "Threefold repetition".

(** [self._config]: per channel, the value of [games] (a JSON text), unset
    for a channel nothing was ever saved in. *)
Abbreviation Config := (gmap N string).

Section Cog.
Context {T : Type} `{!Game.API T} `{!jsonpickle.Pickle T}.

Definition _get_games (config : Config) (channel : N) : option (gmap string T) :=
  match config !! channel with
  | Some games_json =>
      if truthy games_json then Some (jsonpickle.decode games_json) else None
  | None => None
  end.

Definition _set_games (config : Config) (channel : N) (games : gmap string T) : Config :=
  <[channel := jsonpickle.encode games]> config.

Definition game_does_not_exist : string :=
  "This game doesn't appear to exist, please check the " +:+
  "game list to ensure you are entering it correctly".

(** [while game_name + suffix in games.keys(): count += 1; suffix = f'{count}'],
    entered with the current [count] and [suffix]; [fuel] bounds the number
    of iterations and [None] means it ran out. *)
Fixpoint unique_suffix (fuel : nat) (games : gmap string T) (game_name : string)
    (count : nat) (suffix : string) : option string :=
  match games !! (game_name +:+ suffix) with
  | Some _ =>
      match fuel with
      | O => None
      | S fuel =>
          let count := count + 1 in
          unique_suffix fuel games game_name count (pretty count)
      end
  | None => Some suffix
  end.

Definition _display_board (embed : Embed) (game : T) : Output :=
  SendFile (set_image "attachment://board.png" embed) "board.png"
           (Game.get_board_image game).

(** [chess start]: the author plays black, the challenged member white. *)
Definition start_game (fuel : nat) (ctx : Context) (other_player : Member)
    (game_name game_type : option string) (config : Config) : Result * Config :=
  (* [if not games: games = {}] *)
  let games := default ∅ (_get_games config (channel ctx)) in
  let player_black := author ctx in
  let player_white := other_player in
  if member_eq player_black player_white then
    (Returned [SendText "You cannot play chess with yourself"], config)
  else
    let game_name :=
      match game_name with
      | Some n => if truthy n then n else "game"
      | None => "game"
      end in
    match unique_suffix fuel games game_name 0 EmptyString with
    | None => (Diverged, config)
    | Some suffix =>
        let game_name := game_name +:+ suffix in
        let embed := new_embed "Chess" ("Game: " +:+ game_name) in
        match Game.init (id player_black) (id player_white) game_type with
        | None =>
            (Returned [SendEmbed
               (add_field "Invalid Game Type:" (str_opt game_type) embed)],
             config)
        | Some game =>
            let games := <[game_name := game]> games in
            let config := _set_games config (channel ctx) games in
            let embed :=
              add_field_inline "New Game"
                ("<@" +:+ pretty (id player_white) +:+ ">'s (White's) turn is first")
                false embed in
            (Returned [_display_board embed game], config)
        end
    end.

(** [chess move].  [game] is the very object stored in [games], so the
    mutation made by [game.move_piece] is what [_set_games] then saves. *)
Definition move_piece (ctx : Context) (game_name move : string)
    (config : Config) : Result * Config :=
  let embed := new_embed "Chess" ("Game: " +:+ game_name) in
  match _get_games config (channel ctx) with
  | None => (Raised TypeError [], config)
  | Some games =>
  match games !! game_name with
  | None =>
      (Returned [SendEmbed (add_field "Game does not exist" game_does_not_exist embed)],
       config)
  | Some game =>
      let embed := add_field_inline "Type:" (Game.type game) false embed in
      let player_white := get_member ctx (Game.player_white_id game) in
      let player_black := get_member ctx (Game.player_black_id game) in
      let '(turn_color, player_turn, player_next) := Game.order game in
      (* convert ids to members *)
      let '(player_turn, player_next) :=
        if (player_turn =? Game.player_white_id game)%N
        then (player_white, player_black)
        else (player_black, player_white) in
      let otherwise :=
        if is_author ctx player_next then
          (* not their turn yet *)
          match player_next, player_turn with
          | Some next, Some turn =>
              (Returned [SendEmbed
                 (add_field (name next +:+ " - not your turn")
                    (name next +:+ " it doesn't look like its your turn yet! " +:+
                     "<@" +:+ pretty (id turn) +:+ "> (" +:+ turn_color +:+
                     ") still needs to make a move " +:+ "before you can.")
                    embed)],
               config)
          | _, _ => (Raised AttributeError [], config)
          end
        else
          (* not a player *)
          match player_black, player_white with
          | Some black, Some white =>
              (Returned [SendEmbed
                 (add_field (name (author ctx) +:+ " - not a player")
                    (name (author ctx) +:+ " you are not part of this game!" +:+ LF +:+
                     "Only " +:+ name black +:+ " (Black) and " +:+ name white +:+
                     " ' " +:+ "                            " +:+
                     "'(White) are able to play in this game")
                    embed)],
               config)
          | _, _ => (Raised AttributeError [], config)
          end in
      match player_turn with
      | Some turn =>
          if member_eq turn (author ctx) then
            (* it is their turn *)
            match Game.move_piece game move with
            | (None, _) =>
                (Returned [SendEmbed
                   (add_field "Invalid Move Taken!"
                      ("'" +:+ move +:+ "' isn't a valid move, try again.") embed)],
                 config)
            | (Some (is_game_over, value_move), game) =>
                let games := <[game_name := game]> games in
                let name_move :=
                  "Move: " +:+ pretty (Game.total_moves game) +:+ " - " +:+
                  name turn +:+ "'s (" +:+ turn_color +:+ "'s) Turn" in
                let games := if is_game_over then delete game_name games else games in
                let embed :=
                  if is_game_over
                  then add_field "Game Over!"
                         "Match is over! Start a new game if you want to play again."
                         embed
                  else embed in
                let embed := add_field name_move value_move embed in
                (* show if can claim draw *)
                let embed :=
                  if Game.can_claim_draw game then
                    let fifty_moves :=
                      if Game.can_claim_fifty_moves game
                      then LF +:+ DQUOTE +:+ _fifty_moves +:+ DQUOTE
                      else EmptyString in
                    let threefold_repetition :=
                      if Game.can_claim_threefold_repetition game
                      then LF +:+ DQUOTE +:+ _threefold_repetition +:+ DQUOTE
                      else EmptyString in
                    add_field "Draw can be claimed"
                      ("To end this game now use " +:+ DQUOTE +:+ "[p]chess draw claim" +:+
                       DQUOTE +:+ " with:" +:+ fifty_moves +:+ threefold_repetition)
                      embed
                  else embed in
                let config := _set_games config (channel ctx) games in
                (Returned [_display_board embed game], config)
            end
          else otherwise
      | None => otherwise
      end
  end
  end.

(** [chess resign].  [reaction] is what the yes/no prompt yields when it is
    shown: [Some true]/[Some false] for the author's answer, [None] for
    [asyncio.TimeoutError]. *)
Definition resign (ctx : Context) (game_name : string) (confirm : bool)
    (reaction : option bool) (config : Config) : Result * Config :=
  let embed := new_embed "Chess" ("Game: " +:+ game_name) in
  match _get_games config (channel ctx) with
  | None => (Raised TypeError [], config)
  | Some games =>
  match games !! game_name with
  | None =>
      (Returned [SendEmbed
         (add_field "Game does not exist"
            ("This game does not appear to exist, please check " +:+
             "the game list to ensure you are entering it correctly")
            embed)],
       config)
  | Some game =>
      let player_white := get_member ctx (Game.player_white_id game) in
      let player_black := get_member ctx (Game.player_black_id game) in
      if negb (is_author ctx player_white || is_author ctx player_black) then
        match player_black, player_white with
        | Some black, Some white =>
            (Returned [SendEmbed
               (add_field (name (author ctx) +:+ " - Not player")
                  (name (author ctx) +:+ " you are not a part of the game!" +:+ LF +:+
                   "Only " +:+ name black +:+ " (Black) and " +:+ name white +:+
                   " (White) " +:+ "are able to play this game")
                  embed)],
             config)
        | _, _ => (Raised AttributeError [], config)
        end
      else
        (* the part after the confirmation; [msg] is the prompt, if one was sent *)
        let confirmed (embed : Embed) (msg : option Embed) : Result * Config :=
          let sent := match msg with Some prompt => [SendEmbed prompt] | None => [] end in
          let announce (e : Embed) :=
            match msg with Some _ => EditEmbed e | None => SendEmbed e end in
          let games := delete game_name games in
          if is_author ctx player_white then
            match player_white, player_black with
            | Some white, Some black =>
                let embed :=
                  add_field (name white +:+ " resigned")
                    ("Player " +:+ name white +:+ " (White) has resigned!" +:+ LF +:+
                     "Player " +:+ name black +:+ " (Black) has won!")
                    embed in
                (Returned (sent ++ [announce embed]),
                 _set_games config (channel ctx) games)
            | _, _ => (Raised AttributeError sent, config)
            end
          else if is_author ctx player_black then
            match player_black, player_white with
            | Some black, Some white =>
                let embed :=
                  add_field_inline (name black +:+ " resigned")
                    ("Player " +:+ name black +:+ " (Black) has resigned!" +:+ LF +:+
                     "Player " +:+ name white +:+ " (White) has won!")
                    false embed in
                (Returned (sent ++ [announce embed]),
                 _set_games config (channel ctx) games)
            | _, _ => (Raised AttributeError sent, config)
            end
          else
            (Returned (sent ++ [announce embed]),
             _set_games config (channel ctx) games) in
        if negb confirm then
          let embed := add_field "Please confirm." "Would you like to resign?" embed in
          let msg := embed in
          match reaction with
          | Some true => confirmed embed (Some msg)
          | Some false =>
              let embed :=
                add_field "Cancelled"
                  (name (author ctx) +:+ " has not confirmed a resignation") embed in
              (Returned [SendEmbed msg; EditEmbed embed], config)
          | None =>
              let embed :=
                add_field "Timed out" (name (author ctx) +:+ " did not respond.") embed in
              (Returned [SendEmbed msg; EditEmbed embed], config)
          end
        else confirmed embed None
  end
  end.

(** [chess draw claim] *)
Definition claim_draw (ctx : Context) (game_name claim_type : string)
    (config : Config) : Result * Config :=
  let embed := new_embed "Chess" "Claim Draw" in
  match _get_games config (channel ctx) with
  | None => (Raised TypeError [], config)
  | Some games =>
  match games !! game_name with
  | None =>
      (Returned [SendEmbed (add_field "Game does not exist" game_does_not_exist embed)],
       config)
  | Some game =>
      if String.eqb _fifty_moves claim_type && Game.can_claim_fifty_moves game then
        let embed :=
          add_field ("Draw! - " +:+ claim_type)
            "There are been no captures or pawns moved in the last 50 moves" embed in
        let games := delete game_name games in
        (Returned [SendEmbed embed], _set_games config (channel ctx) games)
      else if String.eqb _threefold_repetition claim_type
              && Game.can_claim_threefold_repetition game then
        let embed :=
          add_field ("Draw! - " +:+ claim_type) "Position has occured five times" embed in
        let games := delete game_name games in
        (Returned [SendEmbed embed], _set_games config (channel ctx) games)
      else
        let embed :=
          add_field claim_type
            ("Unable to claim " +:+ claim_type +:+ LF +:+
             claim_type +:+ " is not a valid reason, the game is not drawn.")
            embed in
        (Returned [SendEmbed embed], config)
  end
  end.

(** [chess draw byagreement].  [reaction] is the answer to the offer within
    the 30 seconds: [None] for [asyncio.TimeoutError]. *)
Definition by_agreement (ctx : Context) (game_name : string)
    (reaction : option bool) (config : Config) : Result * Config :=
  let embed := new_embed "Chess" "Offer Draw" in
  match _get_games config (channel ctx) with
  | None => (Raised TypeError [], config)
  | Some games =>
  match games !! game_name with
  | None =>
      (Returned [SendEmbed (add_field "Game does not exist" game_does_not_exist embed)],
       config)
  | Some game =>
      (* identify the other player to mention *)
      let other_player :=
        if (id (author ctx) =? Game.player_black_id game)%N
        then Some (Game.player_white_id game)
        else if (id (author ctx) =? Game.player_white_id game)%N
        then Some (Game.player_black_id game)
        else None in
      match other_player with
      | None =>
          (Returned [SendEmbed
             (add_field "You are not part of this game"
                "You are not able to offer a draw if you are not one of the players."
                embed)],
           config)
      | Some other_player =>
          let embed :=
            add_field (name (author ctx) +:+ " has offered a draw")
              ("<@" +:+ pretty other_player +:+ "> respond below:") embed in
          let message := embed in
          match reaction with
          | Some true =>
              let embed := add_field "Response:" "Draw accepted!" embed in
              let games := delete game_name games in
              (Returned [SendEmbed message; EditEmbed embed; ClearReactions],
               _set_games config (channel ctx) games)
          | Some false =>
              let embed := add_field "Response:" "Draw declined!" embed in
              (Returned [SendEmbed message; EditEmbed embed; ClearReactions], config)
          | None =>
              let embed :=
                add_field "Timed out:"
                  ("<@" +:+ pretty other_player +:+ "> did not respond in time.") embed in
              (Returned [SendEmbed message; EditEmbed embed; ClearReactions], config)
          end
      end
  end
  end.

(** [chess list].  [channels] is [ctx.guild.channels], each channel with its
    id and its name ([str(channel)]); [items] is the order in which a decoded
    dictionary yields its entries ([games.items()]), which the finite map
    does not record. *)
Definition max_len : nat := 1000.

Definition list_of_games : string := "__List of games:__".

Definition channel_field (channel_name output : string) (embed : Embed) : Embed :=
  add_field_inline ("Channel - " +:+ channel_name) (list_of_games +:+ output) false embed.

(** The description of one game; it reads the [name] of both players. *)
Definition current_game (count : nat) (game_name : string) (game : T)
    (player_black player_white : Member) : string :=
  LF +:+ "** Game: #" +:+ pretty count +:+ "** - __" +:+ game_name +:+ "__" +:+ LF +:+
  "```Black: " +:+ name player_black +:+ LF +:+
  "White: " +:+ name player_white +:+ LF +:+
  "Total Moves: " +:+ pretty (Game.total_moves game) +:+ LF +:+
  "Type: " +:+ Game.type game +:+ "```".

(** The inner loop, over the games of one channel.  The state is [count],
    [output], the embed under construction, [total_len] and the messages
    sent so far. *)
Fixpoint list_channel_games (ctx : Context) (channel_name : string)
    (entries : list (string * T)) (count : nat) (output : string)
    (embed : Embed) (total_len : nat) (sent : list Output)
    : Exception * list Output + string * Embed * nat * list Output :=
  match entries with
  | [] => inr (output, embed, total_len, sent)
  | (game_name, game) :: entries =>
      let player_white := get_member ctx (Game.player_white_id game) in
      let player_black := get_member ctx (Game.player_black_id game) in
      let count := count + 1 in
      match player_black, player_white with
      | Some black, Some white =>
          let current_game := current_game count game_name game black white in
          let current_game_len := String.length current_game in
          (* send it now if we hit our limit *)
          if bool_decide (max_len < total_len + current_game_len) then
            let embed := channel_field channel_name output embed in
            list_channel_games ctx channel_name entries count current_game
              (new_embed "Chess" "Chess Game List - Continued") current_game_len
              (sent ++ [SendEmbed embed])
          else
            list_channel_games ctx channel_name entries count
              (output +:+ current_game) embed (total_len + current_game_len) sent
      | _, _ => inl (AttributeError, sent)
      end
  end.

(** The outer loop, over the channels of the guild, and what follows it. *)
Fixpoint list_channels (ctx : Context) (items : gmap string T → list (string * T))
    (channels : list (N * string)) (config : Config) (no_games : bool)
    (embed : Embed) (total_len : nat) (sent : list Output) : Result :=
  match channels with
  | [] =>
      let embed :=
        if no_games
        then add_field "No Games Available"
               "You can start a new game with [p]chess start" embed
        else embed in
      Returned (sent ++ [SendEmbed embed])
  | (channel_id, channel_name) :: channels =>
      match _get_games config channel_id with
      | Some games =>
          (* [if not games: continue] *)
          if bool_decide (size games = 0) then
            list_channels ctx items channels config no_games embed total_len sent
          else
            match list_channel_games ctx channel_name (items games) 0 EmptyString
                    embed total_len sent with
            | inl (e, sent) => Raised e sent
            | inr (output, embed, total_len, sent) =>
                (* add field for remaining *)
                let embed := channel_field channel_name output embed in
                list_channels ctx items channels config false embed total_len sent
            end
      | None => list_channels ctx items channels config no_games embed total_len sent
      end
  end.

Definition list_games (ctx : Context) (items : gmap string T → list (string * T))
    (channels : list (N * string)) (config : Config) : Result :=
  let embed := new_embed "Chess" "Chess Game List" in
  let total_len := String.length (title embed) + String.length (description embed) in
  list_channels ctx items channels config true embed total_len [].

End Cog.
End ChessGame.

(** ** The engine behind [Game] *)

Module Engine.

(** Modelled from the spec: chessgame/game.py, which defines the class
    [Game], is not among the sources; this module follows the
    specification's description of the engine.  Colours, piece kinds and
    the special-move tags of section 3. *)
Inductive Color := White | Black.
Inductive Kind := Pawn | Knight | Bishop | Rook | Queen | King.
Inductive Special := KingsideCastle | QueensideCastle | EnPassantCapture.

#[export] Instance Color_eq_dec : EqDecision Color.
Proof. solve_decision. Defined.
#[export] Instance Kind_eq_dec : EqDecision Kind.
Proof. solve_decision. Defined.
#[export] Instance Special_eq_dec : EqDecision Special.
Proof. solve_decision. Defined.

(** Modelled from the spec: the other side (section 8: the side to move
    after a move is the opposite of the side to move before it). *)
Definition opposite (c : Color) : Color :=
  match c with White => Black | Black => White end.

(** Modelled from the spec: the colour as the query surface reports it
    (section 6). *)
Definition color_name (c : Color) : string :=
  match c with White => "White" | Black => "Black" end.

(** A square is (file, rank), both in 0..7. *)
Abbreviation Square := (nat * nat)%type.
Abbreviation Piece := (Kind * Color)%type.
Abbreviation Grid := (list (list (option Piece))).

(** Modelled from the spec: chessgame/game.py, which defines the class
    [Game], is not among the sources.  Section 3 of the specification: a
    Position is the 8x8 grid, the side to move, the castling rights (per
    side, per rook side), the en-passant target, the half-move clock and the
    full-move number. *)
Record Position := {
  grid : Grid;
  side_to_move : Color;
  castling_rights : (bool * bool) * (bool * bool);
  en_passant : option Square;
  halfmove_clock : nat;
  fullmove_number : nat
}.

#[export] Instance Position_eq_dec : EqDecision Position.
Proof. solve_decision. Defined.

(** Modelled from the spec: the Move record of section 3 of the
    specification (chessgame/game.py is not among the sources). *)
Record Move := {
  origin : Square;
  destination : Square;
  moving : Kind;
  captured : option Kind;
  promotion : option Kind;
  special : option Special
}.

(** Modelled from the spec: the error taxonomy of section 7. *)
Inductive Error :=
| MalformedNotation | IllegalMove | AmbiguousMove
| DrawNotClaimable | GameOver | UnknownVariant | EncodingCorrupt.

(** Modelled from the spec: the states of the Game Session (section 4.3). *)
Inductive State :=
| InProgress
| Checkmate (winner : Color)
| Stalemate
| DrawByInsufficientMaterial
| DrawClaimed (reason : string)
| Resigned (winner : N).

(** Modelled from the spec: the Game Session of section 3 (the class [Game]
    of chessgame/game.py, not among the sources). *)
Record Session := {
  player_white_id : N;
  player_black_id : N;
  variant : string;
  position : Position;
  history : list Move;
  snapshots : list Position;
  move_counter : nat;
  state : State
}.

(** Modelled from the spec: what the specification leaves to the rules of
    chess and to the variant table, none of which it writes out: the
    recognized variant tags and their starting setups, move generation and
    check detection of the Board Model, the effect of a move on the grid, the
    castling rights and the en-passant target, the token grammar of the
    Notation Parser, and the Board Renderer. *)
Class Rules := {
  Token : Type;
  variants : list string;
  default_variant : string;
  initial_grid : string → Grid;
  initial_castling : string → (bool * bool) * (bool * bool);
  legal_moves : Position → list Move;
  is_check : Position → bool;
  has_insufficient_material : Position → bool;
  grid_after : Position → Move → Grid;
  castling_after : Position → Move → (bool * bool) * (bool * bool);
  en_passant_after : Position → Move → option Square;
  tokenize : string → option Token;
  matches : Position → Token → Move → bool;
  san : Position → Move → string;
  render : Position → string
}.

Section Engine.
Context `{Rules}.

(** Modelled from the spec: a move resets the half-move clock when it is a
    capture or a pawn move (section 4.1). *)
Definition is_zeroing (m : Move) : bool :=
  match captured m, moving m with
  | Some _, _ => true
  | None, Pawn => true
  | None, _ => false
  end.

(** Modelled from the spec: [apply] of section 4.1: the side to move flips,
    the half-move clock is reset on a capture or pawn move and incremented
    otherwise, the full-move number is incremented after black's move. *)
Definition apply (p : Position) (m : Move) : Position :=
  {| grid := grid_after p m;
     side_to_move := opposite (side_to_move p);
     castling_rights := castling_after p m;
     en_passant := en_passant_after p m;
     halfmove_clock := if is_zeroing m then 0 else S (halfmove_clock p);
     fullmove_number :=
       match side_to_move p with
       | Black => S (fullmove_number p)
       | White => fullmove_number p
       end |}.

(** Modelled from the spec: checkmate, a derived predicate of section 4.1:
    in check with no legal move. *)
Definition is_checkmate (p : Position) : bool :=
  is_check p && bool_decide (length (legal_moves p) = 0%nat).

(** Modelled from the spec: stalemate, a derived predicate of section 4.1:
    not in check and no legal move. *)
Definition is_stalemate (p : Position) : bool :=
  negb (is_check p) && bool_decide (length (legal_moves p) = 0%nat).

(** Modelled from the spec: [parse] of section 4.2 selects among the legal
    moves of the position. *)
Definition parse (p : Position) (text : string) : Error + Move :=
  match tokenize text with
  | None => inl MalformedNotation
  | Some token =>
      match filter (λ m, matches p token m = true) (legal_moves p) with
      | [] => inl IllegalMove
      | [m] => inr m
      | _ :: _ :: _ => inl AmbiguousMove
      end
  end.

(** Modelled from the spec: the Draw Claim Evaluator of section 4.4.  The
    fifty-move flag holds iff the half-move clock is at least 100. *)
Definition position_can_claim_fifty_moves (p : Position) : bool :=
  bool_decide (100 ≤ halfmove_clock p)%nat.

(** Modelled from the spec: two positions count as the same for repetition
    when placement, side to move, castling rights and en-passant target
    agree (section 4.4). *)
Definition same_position (p q : Position) : bool :=
  bool_decide (grid p = grid q ∧ side_to_move p = side_to_move q ∧
               castling_rights p = castling_rights q ∧ en_passant p = en_passant q).

(** Modelled from the spec: the fifty-move flag a Session exposes
    (sections 4.4 and 6). *)
Definition can_claim_fifty_moves (s : Session) : bool :=
  position_can_claim_fifty_moves (position s).

(** Modelled from the spec: the snapshots before the current position
    (section 4.4). *)
Definition earlier_snapshots (s : Session) : list Position :=
  take (length (snapshots s) - 1) (snapshots s).

(** Modelled from the spec: the repetition flag of section 4.4. *)
Definition can_claim_threefold_repetition (s : Session) : bool :=
  bool_decide
    (2 ≤ length (filter (λ q, same_position (position s) q = true)
                        (earlier_snapshots s)))%nat.

(** Modelled from the spec: some draw can be claimed (section 6, the
    claimable-draw flags). *)
Definition can_claim_draw (s : Session) : bool :=
  can_claim_fifty_moves s || can_claim_threefold_repetition s.

(** Modelled from the spec: a game starts on the variant's setup with
    white to move (section 4.3), no en-passant target, the half-move clock
    at 0 and the full-move number at 1. *)
Definition initial_position (tag : string) : Position :=
  {| grid := initial_grid tag;
     side_to_move := White;
     castling_rights := initial_castling tag;
     en_passant := None;
     halfmove_clock := 0;
     fullmove_number := 1 |}.

(** Modelled from the spec: construction (section 6).  The cog passes the
    black player's id first and the white player's second; an absent tag
    selects the default variant, an unrecognized one is rejected. *)
Definition new (player_black_id player_white_id : N) (variant_tag : option string)
    : Error + Session :=
  let create (tag : string) : Session :=
    {| player_white_id := player_white_id;
       player_black_id := player_black_id;
       variant := tag;
       position := initial_position tag;
       history := [];
       snapshots := [];
       move_counter := 0;
       state := InProgress |} in
  match variant_tag with
  | None => inr (create default_variant)
  | Some tag =>
      if bool_decide (tag ∈ variants) then inr (create tag) else inl UnknownVariant
  end.

(** Modelled from the spec: the query surface of section 6: the colour to
    move, the acting player and the next player. *)
Definition turn (s : Session) : Color := side_to_move (position s).

(** Modelled from the spec: the identifier assigned to a colour at
    creation (section 3). *)
Definition player_of (s : Session) (c : Color) : N :=
  match c with White => player_white_id s | Black => player_black_id s end.

(** Modelled from the spec: the current turn as section 6 lists it: colour,
    acting player, next player. *)
Definition order (s : Session) : Color * N * N :=
  (turn s, player_of s (turn s), player_of s (opposite (turn s))).

(** Modelled from the spec: the terminal conditions re-evaluated after a
    move (section 4.3); the side that just moved wins a checkmate. *)
Definition evaluate (mover : Color) (p : Position) : State :=
  if is_checkmate p then Checkmate mover
  else if is_stalemate p then Stalemate
  else if has_insufficient_material p then DrawByInsufficientMaterial
  else InProgress.

(** Modelled from the spec: every state but [InProgress] is terminal
    (section 4.3). *)
Definition is_over (st : State) : bool :=
  match st with InProgress => false | _ => true end.

(** Modelled from the spec: the summary returned with a move names the
    mover, the colour, the move number, the SAN text and the check or mate
    mark (section 4.3); the specification fixes no layout, this one is
    "<@id> (Colour) n. SAN" followed by "+" or "#". *)
Definition summary (s : Session) (m : Move) (after : Position) : string :=
  "<@" +:+ pretty (player_of s (turn s)) +:+ "> (" +:+ color_name (turn s) +:+ ") " +:+
  pretty (S (move_counter s)) +:+ ". " +:+ san (position s) m +:+
  (if is_checkmate after then "#" else if is_check after then "+" else EmptyString).

(** Modelled from the spec: [move_piece] of section 4.3.  Valid only from
    [InProgress]; on success the move and the resulting position are
    appended, the turn advances and the terminal conditions are
    re-evaluated; on failure the session is returned as it was. *)
Definition move_piece (s : Session) (text : string) : Error + (bool * string * Session) :=
  match state s with
  | InProgress =>
      match parse (position s) text with
      | inl e => inl e
      | inr m =>
          let after := apply (position s) m in
          let s' :=
            {| player_white_id := player_white_id s;
               player_black_id := player_black_id s;
               variant := variant s;
               position := after;
               history := history s ++ [m];
               snapshots := snapshots s ++ [after];
               move_counter := S (move_counter s);
               state := evaluate (turn s) after |} in
          inr (is_over (state s'), summary s m after, s')
      end
  | _ => inl GameOver
  end.

(** Modelled from the spec: a run of successfully applied moves. *)
Fixpoint play (s : Session) (texts : list string) : option Session :=
  match texts with
  | [] => Some s
  | text :: texts =>
      match move_piece s text with
      | inr (_, _, s') => play s' texts
      | inl _ => None
      end
  end.

(** Modelled from the spec: the engine seen through the interface the cog
    calls.  Every engine error surfaces as the [ValueError] the cog catches,
    and a rejected call leaves the object as it was (section 4.3: a failed
    operation leaves the state unchanged). *)
#[export] Instance Game_API : Game.API Session := {|
  Game.init b w tag :=
    match new b w tag with inr s => Some s | inl _ => None end;
  Game.player_white_id := player_white_id;
  Game.player_black_id := player_black_id;
  Game.type := variant;
  Game.total_moves := move_counter;
  Game.order s := let '(c, acting, next) := order s in (color_name c, acting, next);
  Game.move_piece s text :=
    match move_piece s text with
    | inr (over, text, s') => (Some (over, text), s')
    | inl _ => (None, s)
    end;
  Game.can_claim_draw := can_claim_draw;
  Game.can_claim_fifty_moves := can_claim_fifty_moves;
  Game.can_claim_threefold_repetition := can_claim_threefold_repetition;
  Game.get_board_image s := render (position s)
|}.

End Engine.
End Engine.

(** ** A concrete rule set and pickle

    A small instance of the parameters, on which the definitions above run:
    the standard starting position with knight moves only (no check, no
    castling, no en passant), written "Nf3" or "Nxe5", and a pickle that
    writes the binary digits of the dictionary's code. *)

Module Reference.
Import Engine.

Definition back_rank (c : Color) : list (option Piece) :=
  [Some (Rook, c); Some (Knight, c); Some (Bishop, c); Some (Queen, c);
   Some (King, c); Some (Bishop, c); Some (Knight, c); Some (Rook, c)].

Definition start_grid : Grid :=
  [back_rank White; replicate 8 (Some (Pawn, White));
   replicate 8 None; replicate 8 None; replicate 8 None; replicate 8 None;
   replicate 8 (Some (Pawn, Black)); back_rank Black].

Definition start_position : Position :=
  {| grid := start_grid; side_to_move := White;
     castling_rights := ((true, true), (true, true));
     en_passant := None; halfmove_clock := 0; fullmove_number := 1 |}.

Definition piece_at (g : Grid) (sq : Square) : option Piece :=
  row ← g !! sq.2; mjoin (row !! sq.1).

Definition put (g : Grid) (sq : Square) (x : option Piece) : Grid :=
  alter (λ row, <[sq.1 := x]> row) sq.2 g.

Definition knight_jumps : list (Z * Z) :=
  [(1, 2); (2, 1); (2, -1); (1, -2); (-1, -2); (-2, -1); (-2, 1); (-1, 2)]%Z.

Definition on_board (z : Z) : bool := bool_decide (0 ≤ z < 8)%Z.

Definition knight_moves_from (p : Position) (sq : Square) : list Move :=
  match piece_at (grid p) sq with
  | Some (Knight, c) =>
      if bool_decide (c = side_to_move p) then
        jump ← knight_jumps;
        let file := (Z.of_nat sq.1 + jump.1)%Z in
        let rank := (Z.of_nat sq.2 + jump.2)%Z in
        if on_board file && on_board rank then
          let target := (Z.to_nat file, Z.to_nat rank) in
          match piece_at (grid p) target with
          | Some (k, c') =>
              if bool_decide (c' = c) then []
              else [ {| origin := sq; destination := target; moving := Knight;
                        captured := Some k; promotion := None; special := None |} ]
          | None =>
              [ {| origin := sq; destination := target; moving := Knight;
                   captured := None; promotion := None; special := None |} ]
          end
        else []
      else []
  | _ => []
  end.

Definition squares : list Square :=
  rank ← seq 0 8; file ← seq 0 8; [(file, rank)].

Definition knight_moves (p : Position) : list Move :=
  sq ← squares; knight_moves_from p sq.

Definition file_letter (file : nat) : string :=
  default "?" (["a"; "b"; "c"; "d"; "e"; "f"; "g"; "h"] !! file).

Definition knight_san (m : Move) : string :=
  "N" +:+ match captured m with Some _ => "x" | None => EmptyString end +:+
  file_letter (destination m).1 +:+ pretty (S (destination m).2).

Definition knight_grid_after (p : Position) (m : Move) : Grid :=
  put (put (grid p) (origin m) None) (destination m) (Some (moving m, side_to_move p)).

#[export] Instance rules : Rules := {|
  Token := string;
  variants := ["Standard"];
  default_variant := "Standard";
  initial_grid := λ _, start_grid;
  initial_castling := λ _, ((true, true), (true, true));
  legal_moves := knight_moves;
  is_check := λ _, false;
  has_insufficient_material := λ _, false;
  grid_after := knight_grid_after;
  castling_after := λ p _, castling_rights p;
  en_passant_after := λ _ _, None;
  tokenize := λ text, if truthy text then Some text else None;
  matches := λ _ token m, String.eqb token (knight_san m);
  san := λ _ m, knight_san m;
  render := λ p, EmptyString
|}.

(** The binary digits of a positive number, least significant first. *)
Fixpoint digits (p : positive) : string :=
  match p with
  | xH => "1"
  | xO p => String "0" (digits p)
  | xI p => String "1" (digits p)
  end.

Fixpoint number (s : string) : option positive :=
  match s with
  | String "0" s => xO <$> number s
  | String "1" EmptyString => Some xH
  | String "1" s => xI <$> number s
  | _ => None
  end.

#[export] Instance Move_eq_dec : EqDecision Move.
Proof. solve_decision. Defined.
#[export] Instance State_eq_dec : EqDecision State.
Proof. solve_decision. Defined.
#[export] Instance Session_eq_dec : EqDecision Session.
Proof. solve_decision. Defined.

#[export] Instance Color_countable : Countable Color.
Proof.
  by apply (inj_countable' (λ c, match c with White => true | Black => false end)
                           (λ b : bool, if b then White else Black)); intros [].
Defined.

#[export] Instance Kind_countable : Countable Kind.
Proof.
  by apply (inj_countable'
    (λ k, match k with
          | Pawn => 0 | Knight => 1 | Bishop => 2 | Rook => 3 | Queen => 4 | King => 5
          end)
    (λ n : nat, match n with
          | 0 => Pawn | 1 => Knight | 2 => Bishop | 3 => Rook | 4 => Queen | _ => King
          end)); intros [].
Defined.

#[export] Instance Special_countable : Countable Special.
Proof.
  by apply (inj_countable'
    (λ x, match x with KingsideCastle => 0 | QueensideCastle => 1 | EnPassantCapture => 2 end)
    (λ n : nat, match n with
          | 0 => KingsideCastle | 1 => QueensideCastle | _ => EnPassantCapture
          end)); intros [].
Defined.

#[export] Instance Position_countable : Countable Position.
Proof.
  by apply (inj_countable'
    (λ p, (grid p, side_to_move p, castling_rights p, en_passant p,
           halfmove_clock p, fullmove_number p))
    (λ t, let '(g, c, r, e, h, f) := t in
          {| grid := g; side_to_move := c; castling_rights := r; en_passant := e;
             halfmove_clock := h; fullmove_number := f |})); intros [].
Defined.

#[export] Instance Move_countable : Countable Move.
Proof.
  by apply (inj_countable'
    (λ m, (origin m, destination m, moving m, captured m, promotion m, special m))
    (λ t, let '(o, d, k, c, p, s) := t in
          {| origin := o; destination := d; moving := k; captured := c;
             promotion := p; special := s |})); intros [].
Defined.

#[export] Instance State_countable : Countable State.
Proof.
  by apply (inj_countable'
    (λ st, match st with
           | InProgress => inl 0
           | Stalemate => inl 1
           | DrawByInsufficientMaterial => inl 2
           | Checkmate c => inr (inl c)
           | DrawClaimed r => inr (inr (inl r))
           | Resigned w => inr (inr (inr w))
           end)
    (λ x : nat + (Color + (string + N)),
       match x with
       | inl 0 => InProgress
       | inl 1 => Stalemate
       | inl _ => DrawByInsufficientMaterial
       | inr (inl c) => Checkmate c
       | inr (inr (inl r)) => DrawClaimed r
       | inr (inr (inr w)) => Resigned w
       end)); intros [].
Defined.

#[export] Instance Session_countable : Countable Session.
Proof.
  by apply (inj_countable'
    (λ s, (player_white_id s, player_black_id s, variant s, position s,
           history s, snapshots s, move_counter s, state s))
    (λ t, let '(w, b, v, p, h, sn, n, st) := t in
          {| player_white_id := w; player_black_id := b; variant := v; position := p;
             history := h; snapshots := sn; move_counter := n; state := st |}));
    intros [].
Defined.

(** The pickle: the digits of the dictionary's code; a text that is no
    such code decodes to the empty dictionary.  The two functions are sealed,
    so that a saved channel is never evaluated digit by digit. *)
Definition dumps_def (games : gmap string Session) : string := digits (encode games).
Definition dumps_aux : seal dumps_def.
Proof. by eexists. Qed.
Definition dumps := dumps_aux.(unseal).
Definition dumps_unseal : dumps = dumps_def := dumps_aux.(seal_eq).

Definition loads_def (text : string) : gmap string Session :=
  default ∅ (number text ≫= decode).
Definition loads_aux : seal loads_def.
Proof. by eexists. Qed.
Definition loads := loads_aux.(unseal).
Definition loads_unseal : loads = loads_def := loads_aux.(seal_eq).

#[export] Instance pickle : jsonpickle.Pickle Session := {|
  jsonpickle.encode := dumps;
  jsonpickle.decode := loads
|}.

End Reference.

(** * Properties *)

(** ** Vocabulary of the statements *)

Section Vocabulary.
Import Discord ChessGame.
Context {T : Type} `{!Game.API T} `{!jsonpickle.Pickle T}.

(** The game saved under a name in a channel, if any. *)
Definition saved_game (config : Config) (channel : N) (game_name : string) : option T :=
  games ← _get_games config channel; games !! game_name.

(** The member [chess move] takes to be on turn: the player [game.order]
    names, looked up in the guild. *)
Definition acting_player (ctx : Context) (game : T) : option Member :=
  if ((Game.order game).1.2 =? Game.player_white_id game)%N
  then get_member ctx (Game.player_white_id game)
  else get_member ctx (Game.player_black_id game).

Definition waiting_player (ctx : Context) (game : T) : option Member :=
  if ((Game.order game).1.2 =? Game.player_white_id game)%N
  then get_member ctx (Game.player_black_id game)
  else get_member ctx (Game.player_white_id game).

(** The name [chess start] asks for, and the [k]-th candidate for it: the
    name itself, then the name followed by 1, 2, ... *)
Definition requested_name (game_name : option string) : string :=
  match game_name with
  | Some n => if truthy n then n else "game"
  | None => "game"
  end.

Definition suffix_of (k : nat) : string :=
  match k with
  | O => EmptyString
  | S _ => pretty k
  end.

Definition candidate (game_name : string) (k : nat) : string :=
  game_name +:+ suffix_of k.

(** The evaluator flag a claim type stands for; a claim type the cog does
    not know stands for none. *)
Definition claim_flag (claim_type : string) (game : T) : bool :=
  if String.eqb _fifty_moves claim_type then Game.can_claim_fifty_moves game
  else if String.eqb _threefold_repetition claim_type
       then Game.can_claim_threefold_repetition game
  else false.

(** The ways a [chess move] on a saved game fails. *)
Inductive move_failure (ctx : Context) (game : T) (move : string) : Prop :=
| engine_rejects (game' : T) :
    is_author ctx (acting_player ctx game) = true →
    Game.move_piece game move = (None, game') →
    move_failure ctx game move
| not_your_turn :
    is_author ctx (acting_player ctx game) = false →
    is_author ctx (waiting_player ctx game) = true →
    move_failure ctx game move
| not_a_player :
    is_author ctx (acting_player ctx game) = false →
    is_author ctx (waiting_player ctx game) = false →
    move_failure ctx game move.

(** The ways a game saved in a channel comes to its end: a move after which
    the engine reports the game over, a confirmed resignation by one of the
    players, a granted draw claim, an accepted draw offer. *)
Inductive ends_game (channel : N) (game_name : string) (config : Config)
    : Config → Prop :=
| ends_by_move ctx move games game value_move game' :
    Discord.channel ctx = channel →
    _get_games config channel = Some games →
    games !! game_name = Some game →
    is_author ctx (acting_player ctx game) = true →
    Game.move_piece game move = (Some (true, value_move), game') →
    ends_game channel game_name config (move_piece ctx game_name move config).2
| ends_by_resignation ctx confirm reaction games game sent config' :
    Discord.channel ctx = channel →
    _get_games config channel = Some games →
    games !! game_name = Some game →
    is_author ctx (get_member ctx (Game.player_white_id game))
      || is_author ctx (get_member ctx (Game.player_black_id game)) = true →
    confirm = true ∨ reaction = Some true →
    resign ctx game_name confirm reaction config = (Returned sent, config') →
    ends_game channel game_name config config'
| ends_by_claim ctx claim_type games game :
    Discord.channel ctx = channel →
    _get_games config channel = Some games →
    games !! game_name = Some game →
    claim_flag claim_type game = true →
    ends_game channel game_name config (claim_draw ctx game_name claim_type config).2
| ends_by_agreement ctx games game :
    Discord.channel ctx = channel →
    _get_games config channel = Some games →
    games !! game_name = Some game →
    Discord.id (author ctx) = Game.player_black_id game
      ∨ Discord.id (author ctx) = Game.player_white_id game →
    ends_game channel game_name config (by_agreement ctx game_name (Some true) config).2.

(** The reply to a command naming a game the channel does not hold. *)
Definition missing_game_reply (description : string) : Result :=
  Returned [SendEmbed
    (add_field "Game does not exist" game_does_not_exist
       (new_embed "Chess" description))].

(** The field that announces a resignation. *)
Definition resignation (loser winner : Member) (loser_is_white : bool) : Field :=
  {| field_name := name loser +:+ " resigned";
     field_value :=
       "Player " +:+ name loser +:+
       (if loser_is_white then " (White)" else " (Black)") +:+ " has resigned!" +:+
       LF +:+ "Player " +:+ name winner +:+
       (if loser_is_white then " (Black)" else " (White)") +:+ " has won!";
     inline := loser_is_white |}.

(** The embed a command left in the channel last. *)
Definition last_embed (r : Result) : option Embed :=
  match r with
  | Returned sent =>
      match last sent with
      | Some (SendEmbed e) | Some (EditEmbed e) | Some (SendFile e _ _) => Some e
      | _ => None
      end
  | _ => None
  end.

(** What a command can do to the configuration: nothing, or save a
    dictionary for the channel it was called in. *)
Definition saves_at_most (channel : N) (config config' : Config) : Prop :=
  config' = config ∨ ∃ games : gmap string T, config' = _set_games config channel games.

(** The fields of the embeds a command sent, in order. *)
Definition sent_fields (sent : list Output) : list Field :=
  flat_map (λ o, match o with SendEmbed e => fields e | _ => [] end) sent.


Definition join (parts : list string) : string :=
  foldr String.append EmptyString parts.

(** The descriptions [chess list] writes for the entries of one channel,
    numbered from [count + 1]; [None] when a player of one of the games is
    not a member of the guild. *)
Fixpoint game_texts (ctx : Context) (entries : list (string * T)) (count : nat)
    : option (list string) :=
  match entries with
  | [] => Some []
  | (game_name, game) :: entries =>
      match get_member ctx (Game.player_black_id game),
            get_member ctx (Game.player_white_id game) with
      | Some black, Some white =>
          cons (current_game (count + 1) game_name game black white)
            <$> game_texts ctx entries (count + 1)
      | _, _ => None
      end
  end.

(** The channels of the guild that hold games, each with its entries. *)
Definition listed_channels (items : gmap string T → list (string * T))
    (channels : list (N * string)) (config : Config)
    : list (string * list (string * T)) :=
  omap (λ c, match _get_games config c.1 with
             | Some games =>
                 if bool_decide (size games = 0) then None else Some (c.2, items games)
             | None => None
             end) channels.

(** The descriptions of all listed games, channel by channel. *)
Definition listed_texts (ctx : Context) (listed : list (string * list (string * T)))
    : option (list (string * list string)) :=
  mapM (λ c, pair c.1 <$> game_texts ctx c.2 0) listed.

(** The field [chess list] writes for a channel. *)
Definition listing (channel_name part : string) : Field :=
  {| field_name := "Channel - " +:+ channel_name;
     field_value := list_of_games +:+ part;
     inline := false |}.

Definition no_games_available : Field :=
  {| field_name := "No Games Available";
     field_value := "You can start a new game with [p]chess start";
     inline := true |}.

End Vocabulary.

(** ** A channel to run the commands in *)

Module Scenario.
Import Discord ChessGame Engine Reference.

Definition alice : Member := {| id := 1; name := "alice" |}.
Definition bob : Member := {| id := 2; name := "bob" |}.
Definition carol : Member := {| id := 3; name := "carol" |}.

Definition roster : gmap N string :=
  {[ 1%N := "alice"; 2%N := "bob"; 3%N := "carol" ]}.

Definition called_by (m : Member) : Context :=
  {| author := m; channel := 7; guild := roster |}.

(** The game alice starts against bob: alice is black, bob is white. *)
Definition opening : Session :=
  {| player_white_id := 2; player_black_id := 1; variant := "Standard";
     position := start_position; history := []; snapshots := [];
     move_counter := 0; state := InProgress |}.

Definition lobby : Config := _set_games ∅ 7 {[ "game" := opening ]}.

(** The channel after bob has resigned from that game. *)
Definition lobby_after_resignation : Config :=
  _set_games lobby 7 (delete "game" {[ "game" := opening ]}).

(** The same game after 99 plies without a capture or pawn move, black to
    move; the placement does not matter here. *)
Definition shuffled : Session :=
  {| player_white_id := 2; player_black_id := 1; variant := "Standard";
     position :=
       {| grid := start_grid; side_to_move := Black;
          castling_rights := ((false, false), (false, false));
          en_passant := None; halfmove_clock := 99; fullmove_number := 50 |};
     history := []; snapshots := [];
     move_counter := 99; state := InProgress |}.

(** bob calls from the same channel after alice has left the guild. *)
Definition bob_alone : Context :=
  {| author := bob; channel := 7; guild := {[ 2%N := "bob" ]} |}.

(** The text channels of the guild. *)
Definition guild_channels : list (N * string) := [(7%N, "lobby"); (8%N, "lounge")].

(** A channel holding that long game. *)
Definition endgame : Config := _set_games ∅ 7 {[ "game" := shuffled ]}.

(** Running a list of moves on a game, staying put where one is rejected. *)
Definition played (s : Session) (texts : list string) : Session :=
  default s (play s texts).

End Scenario.

(** ** Decimal numerals and candidate names *)

Lemma pretty_N_go_nonempty (x : N) (s : string) :
  s ≠ EmptyString → pretty_N_go x s ≠ EmptyString.
Proof.
  revert s. induction (N.lt_wf_0 x) as [x _ IH]; intros s Hs.
  destruct (decide (x = 0%N)) as [->|Hx].
  - by rewrite pretty_N_go_0.
  - rewrite pretty_N_go_step by lia. apply IH; [apply N.div_lt; lia|done].
Qed.

Lemma pretty_nat_nonempty (k : nat) : pretty k ≠ EmptyString.
Proof.
  unfold pretty, pretty_nat, pretty, pretty_N. case_decide; [done|].
  rewrite pretty_N_go_step by lia. by apply pretty_N_go_nonempty.
Qed.

Lemma suffix_of_inj (j k : nat) : suffix_of j = suffix_of k → j = k.
Proof.
  destruct j as [|j], k as [|k]; simpl; intros Heq; [done|..].
  - by destruct (pretty_nat_nonempty (S k)).
  - by destruct (pretty_nat_nonempty (S j)).
  - by apply (inj pretty).
Qed.

Lemma candidate_inj (game_name : string) : Inj (=) (=) (candidate game_name).
Proof.
  intros j k Heq. apply suffix_of_inj.
  by apply (inj (String.app game_name)) in Heq.
Qed.

(** Among the first [size games + 1] candidates one is not a key. *)
Lemma fresh_candidate_exists {T} (games : gmap string T) (game_name : string) :
  ∃ k, k ≤ size games ∧ games !! candidate game_name k = None.
Proof.
  set (names := candidate game_name <$> seq 0 (S (size games))).
  destruct (decide (Forall (λ n, is_Some (games !! n)) names)) as [Hall|Hex].
  - exfalso.
    assert (NoDup names) as Hnd.
    { pose proof (candidate_inj game_name). apply (NoDup_fmap_2 _), NoDup_seq. }
    assert (list_to_set (C := gset string) names ⊆ dom games) as Hsub.
    { intros n Hn. apply elem_of_list_to_set in Hn. apply elem_of_dom.
      by eapply Forall_forall in Hall. }
    apply subseteq_size in Hsub.
    rewrite size_list_to_set, size_dom in Hsub by done.
    unfold names in Hsub. rewrite length_fmap, length_seq in Hsub. lia.
  - apply not_Forall_Exists in Hex; [|apply _].
    apply Exists_exists in Hex as (n & Hn & Hfree).
    apply list_elem_of_fmap in Hn as (k & -> & Hk).
    apply elem_of_seq in Hk. exists k. split; [lia|].
    by apply eq_None_not_Some.
Qed.

(** ** [chess start] *)

Section StartGame.
Import Discord ChessGame.
Context {T : Type} `{!Game.API T} `{!jsonpickle.Pickle T}.

(** Run from [count], the naming loop stops at the first candidate that is
    not a key, provided one lies within [fuel] steps. *)
Lemma unique_suffix_first_free (games : gmap string T) (game_name : string) (fuel : nat) :
  ∀ count,
    (∃ k, count ≤ k ≤ count + fuel ∧ games !! candidate game_name k = None) →
    ∃ k, count ≤ k ≤ count + fuel ∧
         unique_suffix fuel games game_name count (suffix_of count) = Some (suffix_of k) ∧
         games !! candidate game_name k = None ∧
         ∀ j, count ≤ j < k → is_Some (games !! candidate game_name j).
Proof.
  induction fuel as [|fuel IH]; intros count (k' & Hk' & Hfree).
  - assert (k' = count) as -> by lia. exists count.
    split; [lia|]. simpl. unfold candidate in Hfree. rewrite Hfree.
    repeat split; [done|]. intros j ?; lia.
  - destruct (games !! candidate game_name count) as [g|] eqn:Hcount.
    + destruct (IH (S count)) as (k & Hk & Hrun & Hnone & Hbelow).
      { exists k'. split; [|done].
        assert (k' ≠ count) by (intros ->; congruence). lia. }
      exists k. split; [lia|]. split; [|split; [done|]].
      * simpl. unfold candidate in Hcount. rewrite Hcount.
        replace (count + 1) with (S count) by lia. exact Hrun.
      * intros j Hj. destruct (decide (j = count)) as [->|]; [by rewrite Hcount|].
        apply Hbelow; lia.
    + exists count. split; [lia|]. simpl. unfold candidate in Hcount.
      rewrite Hcount. repeat split; [done|]. intros j ?; lia.
Qed.

Lemma unique_suffix_terminates (games : gmap string T) (game_name : string) (fuel : nat) :
  size games ≤ fuel →
  ∃ k, unique_suffix fuel games game_name 0 EmptyString = Some (suffix_of k) ∧
       games !! candidate game_name k = None ∧
       ∀ j, j < k → is_Some (games !! candidate game_name j).
Proof.
  intros Hfuel.
  destruct (fresh_candidate_exists games game_name) as (k' & Hk' & Hfree).
  destruct (unique_suffix_first_free games game_name fuel 0) as (k & _ & Hrun & Hnone & Hlow).
  { exists k'. split; [lia|done]. }
  exists k. repeat split; [done..|]. intros j ?. apply Hlow; lia.
Qed.

Lemma start_game_with_yourself fuel ctx other_player game_name game_type config :
  member_eq (author ctx) other_player = true →
  start_game fuel ctx other_player game_name game_type config
  = (Returned [SendText "You cannot play chess with yourself"], config).
Proof. intros Hsame. unfold start_game. by rewrite Hsame. Qed.

Lemma start_game_unfold fuel ctx other_player game_name game_type config suffix :
  member_eq (author ctx) other_player = false →
  unique_suffix fuel (default ∅ (_get_games config (channel ctx)))
    (requested_name game_name) 0 EmptyString = Some suffix →
  start_game fuel ctx other_player game_name game_type config
  = let fresh := requested_name game_name +:+ suffix in
    let embed := new_embed "Chess" ("Game: " +:+ fresh) in
    match Game.init (id (author ctx)) (id other_player) game_type with
    | None =>
        (Returned [SendEmbed (add_field "Invalid Game Type:" (str_opt game_type) embed)],
         config)
    | Some game =>
        (Returned [_display_board
           (add_field_inline "New Game"
              ("<@" +:+ pretty (id other_player) +:+ ">'s (White's) turn is first")
              false embed) game],
         _set_games config (channel ctx)
           (<[fresh := game]> (default ∅ (_get_games config (channel ctx)))))
    end.
Proof.
  intros Hne Hrun. unfold start_game. rewrite Hne. fold (requested_name game_name).
  by rewrite Hrun.
Qed.

End StartGame.

Section StartGameClaims.
Import Discord ChessGame.
Context {T : Type} `{!Game.API T} `{!jsonpickle.Pickle T}.

(** C9.  Whatever games the channel holds, [chess start] comes back (given
    fuel for as many iterations as there are games, the naming loop does not
    run out), and when it creates a game it saves it under the first
    candidate that is not yet a key: the requested (or default) name if it is
    free, and otherwise that name followed by the smallest positive integer
    that makes it free.  Every entry the dictionary had is still there,
    unchanged. *)
Theorem start_game_picks_fresh_name fuel ctx other_player game_name game_type config :
  let games := default ∅ (_get_games config (channel ctx)) in
  let base := requested_name game_name in
  size games ≤ fuel →
  (start_game fuel ctx other_player game_name game_type config).1 ≠ Diverged ∧
  ∀ game,
    member_eq (author ctx) other_player = false →
    Game.init (id (author ctx)) (id other_player) game_type = Some game →
    ∃ k,
      games !! candidate base k = None ∧
      (∀ j, j < k → is_Some (games !! candidate base j)) ∧
      start_game fuel ctx other_player game_name game_type config
      = (Returned [_display_board
           (add_field_inline "New Game"
              ("<@" +:+ pretty (id other_player) +:+ ">'s (White's) turn is first")
              false (new_embed "Chess" ("Game: " +:+ candidate base k))) game],
         _set_games config (channel ctx) (<[candidate base k := game]> games)) ∧
      ∀ n g, games !! n = Some g → <[candidate base k := game]> games !! n = Some g.
Proof.
  intros games base Hfuel.
  destruct (unique_suffix_terminates games base fuel Hfuel) as (k & Hrun & Hfree & Hlow).
  split.
  - destruct (member_eq (author ctx) other_player) eqn:Hsame.
    + by rewrite start_game_with_yourself.
    + rewrite (start_game_unfold _ _ _ _ _ _ _ Hsame Hrun). simpl.
      by destruct (Game.init _ _ _).
  - intros game Hne Hinit. exists k. split; [done|]. split; [done|]. split.
    + rewrite (start_game_unfold _ _ _ _ _ _ _ Hne Hrun). simpl. by rewrite Hinit.
    + intros n g Hn. rewrite lookup_insert_ne; [done|]. intros <-. congruence.
Qed.

(** C10.  A member who challenges themself is told so; no game is
    constructed and the saved games are left as they were. *)
Theorem start_game_rejects_self_challenge fuel ctx other_player game_name game_type config :
  id (author ctx) = id other_player →
  start_game fuel ctx other_player game_name game_type config
  = (Returned [SendText "You cannot play chess with yourself"], config).
Proof.
  intros Hsame. apply start_game_with_yourself.
  unfold member_eq. rewrite Hsame. apply N.eqb_refl.
Qed.

End StartGameClaims.

(** ** The commands on a saved game *)

Section Commands.
Import Discord ChessGame.
Context {T : Type} `{!Game.API T} `{!jsonpickle.Pickle T}.

Lemma get_set_games config channel (games : gmap string T) :
  jsonpickle.round_trips → jsonpickle.never_empty →
  _get_games (_set_games config channel games) channel = Some games.
Proof.
  intros Hround Hfull. unfold _get_games, _set_games.
  by rewrite lookup_insert_eq, Hfull, Hround.
Qed.

(** *** [chess move] *)

Lemma move_piece_missing ctx game_name move config games :
  _get_games config (channel ctx) = Some games →
  games !! game_name = None →
  move_piece ctx game_name move config
  = (missing_game_reply ("Game: " +:+ game_name), config).
Proof. intros Hget Hnone. unfold move_piece. by rewrite Hget, Hnone. Qed.

Lemma move_piece_not_acting ctx game_name move config games game :
  _get_games config (channel ctx) = Some games →
  games !! game_name = Some game →
  is_author ctx (acting_player ctx game) = false →
  (move_piece ctx game_name move config).2 = config.
Proof.
  intros Hget Hgame Hnot. unfold move_piece. rewrite Hget, Hgame.
  unfold acting_player in Hnot.
  destruct (Game.order game) as [[turn_color player_turn] player_next]; simpl in *.
  destruct (player_turn =? Game.player_white_id game)%N;
    destruct (get_member ctx (Game.player_white_id game)) as [white|];
    destruct (get_member ctx (Game.player_black_id game)) as [black|];
    simpl in *; rewrite ?Hnot; repeat (case_match; simpl; try done); done.
Qed.

Lemma move_piece_rejected ctx game_name move config games game game' :
  _get_games config (channel ctx) = Some games →
  games !! game_name = Some game →
  is_author ctx (acting_player ctx game) = true →
  Game.move_piece game move = (None, game') →
  move_piece ctx game_name move config
  = (Returned [SendEmbed
       (add_field "Invalid Move Taken!"
          ("'" +:+ move +:+ "' isn't a valid move, try again.")
          (add_field_inline "Type:" (Game.type game) false
             (new_embed "Chess" ("Game: " +:+ game_name))))],
     config).
Proof.
  intros Hget Hgame Hturn Hmove. unfold move_piece. rewrite Hget, Hgame.
  unfold acting_player in Hturn.
  destruct (Game.order game) as [[turn_color player_turn] player_next]; simpl in *.
  destruct (player_turn =? Game.player_white_id game)%N;
    [destruct (get_member ctx (Game.player_white_id game)) as [turn|]
    |destruct (get_member ctx (Game.player_black_id game)) as [turn|]];
    simpl in *; try done; by rewrite Hturn, Hmove.
Qed.

Lemma move_piece_applied ctx game_name move config games game over value_move game' :
  _get_games config (channel ctx) = Some games →
  games !! game_name = Some game →
  is_author ctx (acting_player ctx game) = true →
  Game.move_piece game move = (Some (over, value_move), game') →
  (move_piece ctx game_name move config).2
  = _set_games config (channel ctx)
      (if over then delete game_name games else <[game_name := game']> games).
Proof.
  intros Hget Hgame Hturn Hmove. unfold move_piece. rewrite Hget, Hgame.
  unfold acting_player in Hturn.
  destruct (Game.order game) as [[turn_color player_turn] player_next]; simpl in *.
  destruct (player_turn =? Game.player_white_id game)%N;
    [destruct (get_member ctx (Game.player_white_id game)) as [turn|]
    |destruct (get_member ctx (Game.player_black_id game)) as [turn|]];
    simpl in *; try done; rewrite Hturn, Hmove; simpl;
    destruct over; by rewrite ?delete_insert_eq.
Qed.

(** *** [chess draw claim] *)

Lemma claim_draw_missing ctx game_name claim_type config games :
  _get_games config (channel ctx) = Some games →
  games !! game_name = None →
  claim_draw ctx game_name claim_type config
  = (missing_game_reply "Claim Draw", config).
Proof. intros Hget Hnone. unfold claim_draw. by rewrite Hget, Hnone. Qed.

Lemma claim_draw_granted ctx game_name claim_type config games game :
  _get_games config (channel ctx) = Some games →
  games !! game_name = Some game →
  claim_flag claim_type game = true →
  ∃ reason,
    claim_draw ctx game_name claim_type config
    = (Returned [SendEmbed
         (add_field ("Draw! - " +:+ claim_type) reason (new_embed "Chess" "Claim Draw"))],
       _set_games config (channel ctx) (delete game_name games)).
Proof.
  intros Hget Hgame Hflag. unfold claim_draw. rewrite Hget, Hgame.
  unfold claim_flag in Hflag.
  destruct (String.eqb _fifty_moves claim_type).
  - rewrite Hflag. simpl. eauto.
  - destruct (String.eqb _threefold_repetition claim_type); [|done].
    rewrite Hflag. simpl. eauto.
Qed.

Lemma claim_draw_refused ctx game_name claim_type config games game :
  _get_games config (channel ctx) = Some games →
  games !! game_name = Some game →
  claim_flag claim_type game = false →
  claim_draw ctx game_name claim_type config
  = (Returned [SendEmbed
       (add_field claim_type
          ("Unable to claim " +:+ claim_type +:+ LF +:+
           claim_type +:+ " is not a valid reason, the game is not drawn.")
          (new_embed "Chess" "Claim Draw"))],
     config).
Proof.
  intros Hget Hgame Hflag. unfold claim_draw. rewrite Hget, Hgame.
  unfold claim_flag in Hflag.
  destruct (String.eqb _fifty_moves claim_type) eqn:Hfifty.
  - apply String.eqb_eq in Hfifty as <-. by rewrite Hflag.
  - destruct (String.eqb _threefold_repetition claim_type); [by rewrite Hflag|done].
Qed.

End Commands.

Section Endings.
Import Discord ChessGame.
Context {T : Type} `{!Game.API T} `{!jsonpickle.Pickle T}.

Lemma get_member_id ctx member_id m : get_member ctx member_id = Some m → id m = member_id.
Proof.
  unfold get_member. destruct (guild ctx !! member_id); simpl; [|done].
  by intros [= <-].
Qed.

(** *** [chess resign] *)

Lemma resign_not_confirmed ctx game_name reaction config games game :
  _get_games config (channel ctx) = Some games →
  games !! game_name = Some game →
  reaction ≠ Some true →
  (resign ctx game_name false reaction config).2 = config.
Proof.
  intros Hget Hgame Hno. unfold resign. rewrite Hget, Hgame.
  destruct (negb _); [by repeat case_match|].
  simpl. destruct reaction as [[]|]; done.
Qed.

Lemma resign_went_through ctx game_name confirm reaction config games game sent config' :
  _get_games config (channel ctx) = Some games →
  games !! game_name = Some game →
  is_author ctx (get_member ctx (Game.player_white_id game))
    || is_author ctx (get_member ctx (Game.player_black_id game)) = true →
  confirm = true ∨ reaction = Some true →
  resign ctx game_name confirm reaction config = (Returned sent, config') →
  config' = _set_games config (channel ctx) (delete game_name games).
Proof.
  intros Hget Hgame Hplayer Hyes. unfold resign. rewrite Hget, Hgame, Hplayer. simpl.
  destruct confirm; simpl.
  - repeat case_match; intros ?; by simplify_eq.
  - destruct Hyes as [? | ->]; [done|].
    repeat case_match; intros ?; by simplify_eq.
Qed.

Lemma resign_announces ctx game_name confirm reaction config games game white black :
  _get_games config (channel ctx) = Some games →
  games !! game_name = Some game →
  get_member ctx (Game.player_white_id game) = Some white →
  get_member ctx (Game.player_black_id game) = Some black →
  is_author ctx (Some white) || is_author ctx (Some black) = true →
  confirm = true ∨ reaction = Some true →
  ∃ sent e,
    resign ctx game_name confirm reaction config
    = (Returned sent, _set_games config (channel ctx) (delete game_name games)) ∧
    last_embed (Returned sent) = Some e ∧
    last (fields e)
    = Some (if is_author ctx (Some white)
            then resignation white black true
            else resignation black white false).
Proof.
  intros Hget Hgame Hwhite Hblack Hplayer Hyes.
  unfold resign. rewrite Hget, Hgame, Hwhite, Hblack, Hplayer. simpl in *.
  destruct confirm; simpl.
  - destruct (member_eq white (author ctx)) eqn:Hw; simpl in *.
    + eexists _, _. split; [done|]. split; [done|]. done.
    + rewrite Hplayer. eexists _, _. split; [done|]. split; [done|]. done.
  - destruct Hyes as [? | ->]; [done|].
    destruct (member_eq white (author ctx)) eqn:Hw; simpl in *.
    + eexists _, _. split; [done|]. split; [done|]. done.
    + rewrite Hplayer. eexists _, _. split; [done|]. split; [done|]. done.
Qed.

(** *** [chess draw byagreement] *)

Lemma by_agreement_accepted ctx game_name config games game :
  _get_games config (channel ctx) = Some games →
  games !! game_name = Some game →
  id (author ctx) = Game.player_black_id game
    ∨ id (author ctx) = Game.player_white_id game →
  (by_agreement ctx game_name (Some true) config).2
  = _set_games config (channel ctx) (delete game_name games).
Proof.
  intros Hget Hgame Hplayer. unfold by_agreement. rewrite Hget, Hgame.
  destruct Hplayer as [->| ->]; rewrite N.eqb_refl; [done|].
  by destruct (_ =? _)%N.
Qed.

(** Each way a game ends saves the dictionary without it. *)
Lemma ends_game_deletes channel game_name config config' :
  ends_game channel game_name config config' →
  ∃ games, _get_games config channel = Some games ∧
           config' = _set_games config channel (delete game_name games).
Proof.
  intros [ctx move games game value_move game' <- Hget Hgame Hturn Hmove
         |ctx confirm reaction games game sent cfg <- Hget Hgame Hplayer Hyes Hrun
         |ctx claim_type games game <- Hget Hgame Hflag
         |ctx games game <- Hget Hgame Hplayer]; exists games; (split; [done|]).
  - by rewrite (move_piece_applied _ _ _ _ _ _ _ _ _ Hget Hgame Hturn Hmove).
  - by eapply (resign_went_through _ _ _ _ _ _ game).
  - destruct (claim_draw_granted _ _ _ _ _ _ Hget Hgame Hflag) as [reason ->]. done.
  - by apply (by_agreement_accepted _ _ _ _ game).
Qed.

End Endings.

Section CommandClaims.
Import Discord ChessGame.
Context {T : Type} `{!Game.API T} `{!jsonpickle.Pickle T}.

(** C1, as the cog has it.  Once a game saved in a channel has come to its
    end (a move the engine reports as ending it, a confirmed resignation, a
    granted draw claim, an accepted draw offer) the cog has removed it from
    the channel's dictionary: every later [chess move] or [chess draw claim]
    naming it gets the reply "Game does not exist" and leaves the saved games
    as they are.  The pickle is assumed to give back the dictionary it was
    given and never to produce the empty text. *)
Theorem finished_game_is_forgotten channel game_name config config' :
  jsonpickle.round_trips → jsonpickle.never_empty →
  ends_game channel game_name config config' →
  ∀ ctx, Discord.channel ctx = channel →
    (∀ move,
       move_piece ctx game_name move config'
       = (missing_game_reply ("Game: " +:+ game_name), config')) ∧
    (∀ claim_type,
       claim_draw ctx game_name claim_type config'
       = (missing_game_reply "Claim Draw", config')).
Proof.
  intros Hround Hfull Hend ctx <-.
  destruct (ends_game_deletes _ _ _ _ Hend) as (games & _ & ->).
  pose proof (get_set_games config (Discord.channel ctx) (delete game_name games)
                Hround Hfull) as Hget.
  split; intros.
  - apply (move_piece_missing _ _ _ _ _ Hget), lookup_delete_eq.
  - apply (claim_draw_missing _ _ _ _ _ Hget), lookup_delete_eq.
Qed.

(** C2.  On a saved game, [chess draw claim] ends the game in a draw (the
    game is removed and the dictionary saved) exactly when the flag the claim
    type stands for is set; when the flag is not set, and in particular for a
    claim type that is neither "Fifty moves" nor "Threefold repetition", the
    reply is "Unable to claim ..." and the saved games, this game included,
    stay as they are. *)
Theorem claim_draw_follows_flag ctx game_name claim_type config games game :
  _get_games config (channel ctx) = Some games →
  games !! game_name = Some game →
  (claim_flag claim_type game = true →
     ∃ reason,
       claim_draw ctx game_name claim_type config
       = (Returned [SendEmbed
            (add_field ("Draw! - " +:+ claim_type) reason
               (new_embed "Chess" "Claim Draw"))],
          _set_games config (channel ctx) (delete game_name games))) ∧
  (claim_flag claim_type game = false →
     claim_draw ctx game_name claim_type config
     = (Returned [SendEmbed
          (add_field claim_type
             ("Unable to claim " +:+ claim_type +:+ LF +:+
              claim_type +:+ " is not a valid reason, the game is not drawn.")
             (new_embed "Chess" "Claim Draw"))],
        config) ∧
     saved_game (claim_draw ctx game_name claim_type config).2 (channel ctx) game_name
     = Some game) ∧
  (claim_type ≠ _fifty_moves → claim_type ≠ _threefold_repetition →
     claim_flag claim_type game = false).
Proof.
  intros Hget Hgame. split; [|split].
  - intros Hflag. by apply (claim_draw_granted _ _ _ _ _ game).
  - intros Hflag. rewrite (claim_draw_refused _ _ _ _ _ _ Hget Hgame Hflag).
    split; [done|]. unfold saved_game. simpl. by rewrite Hget.
  - intros Hfifty Hthree. unfold claim_flag.
    destruct (String.eqb_spec _fifty_moves claim_type); [done|].
    by destruct (String.eqb_spec _threefold_repetition claim_type).
Qed.

(** C3.  A [chess move] that fails leaves the saved games exactly as they
    were.  On a saved game the failures are: the engine rejects the notation
    (malformed, illegal or ambiguous), the caller is the player who is not on
    turn, the caller is no player of the game; after each the game is still
    saved, with the position and history it had.  A call naming a game that
    is not saved changes nothing either. *)
Theorem failed_move_changes_nothing ctx game_name move config :
  (∀ games game,
     _get_games config (channel ctx) = Some games →
     games !! game_name = Some game →
     move_failure ctx game move →
     (move_piece ctx game_name move config).2 = config ∧
     saved_game (move_piece ctx game_name move config).2 (channel ctx) game_name
     = Some game) ∧
  (saved_game config (channel ctx) game_name = None →
     (move_piece ctx game_name move config).2 = config).
Proof.
  split.
  - intros games game Hget Hgame Hfail.
    assert ((move_piece ctx game_name move config).2 = config) as ->.
    { destruct Hfail as [game' Hturn Hmove|Hturn _|Hturn _].
      - by rewrite (move_piece_rejected _ _ _ _ _ _ _ Hget Hgame Hturn Hmove).
      - by apply (move_piece_not_acting _ _ _ _ _ _ Hget Hgame).
      - by apply (move_piece_not_acting _ _ _ _ _ _ Hget Hgame). }
    split; [done|]. unfold saved_game. by rewrite Hget.
  - unfold saved_game, move_piece.
    destruct (_get_games config (channel ctx)) as [games|]; [|done].
    simpl. by intros ->.
Qed.

(** C4, as the cog has it.  On a saved game, whoever is on turn, a
    resignation by either player that is confirmed (by the [confirm]
    argument or by answering yes to the prompt) ends the game: the game is
    removed, the dictionary saved, and the last message names the resigning
    player and declares the other player the winner.  A resignation that is
    not confirmed (the prompt answered no, or timed out) changes nothing.
    Both players are taken to be members of the guild. *)
Theorem resign_ends_game_once_confirmed
    ctx game_name confirm reaction config games game white black :
  _get_games config (channel ctx) = Some games →
  games !! game_name = Some game →
  get_member ctx (Game.player_white_id game) = Some white →
  get_member ctx (Game.player_black_id game) = Some black →
  is_author ctx (Some white) || is_author ctx (Some black) = true →
  (confirm = true ∨ reaction = Some true →
     ∃ sent e,
       resign ctx game_name confirm reaction config
       = (Returned sent, _set_games config (channel ctx) (delete game_name games)) ∧
       last_embed (Returned sent) = Some e ∧
       last (fields e)
       = Some (if is_author ctx (Some white)
               then resignation white black true
               else resignation black white false)) ∧
  (confirm = false → reaction ≠ Some true →
     (resign ctx game_name confirm reaction config).2 = config).
Proof.
  intros Hget Hgame Hwhite Hblack Hplayer. split.
  - by apply (resign_announces _ _ _ _ _ _ game).
  - intros -> Hno. by apply (resign_not_confirmed _ _ _ _ games game).
Qed.

End CommandClaims.

(** ** The reference pickle *)

Section ReferencePickle.
Import Engine Reference.

Lemma digits_nonempty (p : positive) : ∃ c s, Reference.digits p = String c s.
Proof. destruct p; simpl; eauto. Qed.

Lemma number_digits (p : positive) : Reference.number (Reference.digits p) = Some p.
Proof.
  induction p as [p IH|p IH|]; [| |done].
  - change (Reference.digits p~1) with (String "1" (Reference.digits p)).
    destruct (digits_nonempty p) as (c & s & Hp). rewrite Hp in *.
    change (Reference.number (String "1" (String c s)))
      with (xI <$> Reference.number (String c s)).
    by rewrite IH.
  - change (Reference.digits p~0) with (String "0" (Reference.digits p)).
    change (Reference.number (String "0" (Reference.digits p)))
      with (xO <$> Reference.number (Reference.digits p)).
    by rewrite IH.
Qed.

Lemma pickle_round_trips : jsonpickle.round_trips (T := Engine.Session).
Proof.
  intros games. unfold jsonpickle.decode, jsonpickle.encode, Reference.pickle.
  rewrite dumps_unseal, loads_unseal. unfold loads_def, dumps_def.
  rewrite number_digits. simpl. by rewrite decode_encode.
Qed.

Lemma pickle_never_empty : jsonpickle.never_empty (T := Engine.Session).
Proof.
  intros games. unfold jsonpickle.encode, Reference.pickle.
  rewrite dumps_unseal. unfold dumps_def.
  by destruct (digits_nonempty (encode games)) as (c & s & ->).
Qed.

End ReferencePickle.

(** ** The engine *)

Section EngineFacts.
Import Engine.
Context `{Rules}.

Lemma new_inv b w tag s :
  new b w tag = inr s →
  player_white_id s = w ∧ player_black_id s = b ∧ turn s = White ∧
  halfmove_clock (position s) = 0 ∧ move_counter s = 0 ∧ state s = InProgress.
Proof.
  unfold new. destruct tag as [tag|]; [case_bool_decide|]; intros ?; by simplify_eq.
Qed.

Lemma new_unknown_variant b w tag :
  tag ∉ variants → new b w (Some tag) = inl UnknownVariant.
Proof. intros Hnot. unfold new. by rewrite bool_decide_eq_false_2. Qed.

(** A successful [move_piece] applied one legal move of the position. *)
Lemma move_piece_inv s text over text' s' :
  move_piece s text = inr (over, text', s') →
  ∃ m, state s = InProgress ∧
       m ∈ legal_moves (position s) ∧
       position s' = apply (position s) m ∧
       history s' = history s ++ [m] ∧
       snapshots s' = snapshots s ++ [position s'] ∧
       move_counter s' = S (move_counter s) ∧
       player_white_id s' = player_white_id s ∧
       player_black_id s' = player_black_id s.
Proof.
  unfold move_piece. destruct (state s); try done.
  unfold parse. destruct (tokenize text) as [token|]; [|done].
  destruct (filter _ _) as [|m [|??]] eqn:Hfilter; try done.
  intros ?; simplify_eq. exists m. repeat split; try done.
  assert (m ∈ filter (λ m, matches (position s) token m = true)
                     (legal_moves (position s))) as Hm
    by (rewrite Hfilter; left).
  by apply list_elem_of_filter in Hm as [_ ?].
Qed.

Lemma move_piece_turn s text over text' s' :
  move_piece s text = inr (over, text', s') →
  turn s' = opposite (turn s) ∧
  player_white_id s' = player_white_id s ∧
  player_black_id s' = player_black_id s.
Proof.
  intros (m & _ & _ & Hpos & _ & _ & _ & Hw & Hb)%move_piece_inv.
  unfold turn. by rewrite Hpos.
Qed.

Lemma play_turn texts : ∀ s s',
  play s texts = Some s' →
  turn s' = if Nat.even (length texts) then turn s else opposite (turn s).
Proof.
  induction texts as [|t texts IH]; intros s s'.
  - by intros [= ->].
  - cbn [play length].
    destruct (move_piece s t) as [|[[over text] s1]] eqn:Hmove; [done|].
    intros Hplay%IH. apply move_piece_turn in Hmove as [Hs1 _].
    rewrite Hplay, Hs1, Nat.even_succ, <- Nat.negb_even.
    by destruct (Nat.even (length texts)), (turn s).
Qed.

Lemma acting_player_on_turn `{!jsonpickle.Pickle Session} ctx (s : Session) :
  acting_player ctx s = Discord.get_member ctx (player_of s (turn s)).
Proof.
  unfold acting_player. simpl. unfold order.
  destruct (turn s); simpl; [by rewrite N.eqb_refl|].
  by destruct (N.eqb_spec (player_black_id s) (player_white_id s)) as [->|].
Qed.

End EngineFacts.

Section EngineClaims.
Import Engine.
Context `{Rules} `{!jsonpickle.Pickle Session}.

(** C6.  For two distinct players and a variant tag that is not among the
    recognized ones, constructing the game fails with [UnknownVariant]; the
    cog replies "Invalid Game Type:" with the tag, creates no game and leaves
    the channel's saved games as they were. *)
Theorem unknown_variant_is_rejected fuel ctx other_player game_name tag config :
  tag ∉ variants →
  Discord.id (Discord.author ctx) ≠ Discord.id other_player →
  size (default ∅ (ChessGame._get_games config (Discord.channel ctx))) ≤ fuel →
  new (Discord.id (Discord.author ctx)) (Discord.id other_player) (Some tag)
  = inl UnknownVariant ∧
  ∃ k,
    ChessGame.start_game fuel ctx other_player game_name (Some tag) config
    = (Returned [Discord.SendEmbed
         (Discord.add_field "Invalid Game Type:" tag
            (Discord.new_embed "Chess"
               ("Game: " +:+ candidate (requested_name game_name) k)))],
       config).
Proof.
  intros Htag Hne Hfuel. split; [by apply new_unknown_variant|].
  destruct (unique_suffix_terminates _ (requested_name game_name) fuel Hfuel)
    as (k & Hrun & _ & _).
  assert (Discord.member_eq (Discord.author ctx) other_player = false) as Hother
    by (unfold Discord.member_eq; by apply N.eqb_neq).
  exists k. rewrite (start_game_unfold _ _ _ _ _ _ _ Hother Hrun).
  cbv zeta. unfold Game.init, Game_API. by rewrite new_unknown_variant.
Qed.

(** C7.  In a freshly constructed game white is on turn, and white is the
    player given second to the constructor (the member the author
    challenged).  Every successfully applied move passes the turn to the
    opposite colour, so after [n] moves of a game white is on turn when [n]
    is even and black when it is odd.  The cog takes the player on turn to
    be the member whose id the engine names, and a [chess move] by anybody
    else leaves the saved games untouched. *)
Theorem white_moves_first_then_turns_alternate :
  (∀ b w tag s, new b w tag = inr s → order s = (White, w, b)) ∧
  (∀ s text over text' s',
     move_piece s text = inr (over, text', s') →
     turn s' = opposite (turn s) ∧
     order s' = (opposite (turn s), player_of s (opposite (turn s)), player_of s (turn s))) ∧
  (∀ b w tag s texts s',
     new b w tag = inr s → play s texts = Some s' →
     turn s' = if Nat.even (length texts) then White else Black) ∧
  (∀ ctx s, acting_player ctx s = Discord.get_member ctx (player_of s (turn s))) ∧
  (∀ ctx game_name move config games s,
     ChessGame._get_games config (Discord.channel ctx) = Some games →
     games !! game_name = Some s →
     Discord.id (Discord.author ctx) ≠ player_of s (turn s) →
     (ChessGame.move_piece ctx game_name move config).2 = config).
Proof.
  split; [|split; [|split; [|split]]].
  - intros b w tag s (Hw & Hb & Hturn & _)%new_inv. unfold order.
    rewrite Hturn. simpl. by rewrite Hw, Hb.
  - intros s text over text' s' (Hturn & Hw & Hb)%move_piece_turn.
    split; [done|]. unfold order, player_of.
    rewrite Hturn, Hw, Hb. by destruct (turn s).
  - intros b w tag s texts s' (_ & _ & Hturn & _)%new_inv Hplay%play_turn.
    by rewrite Hplay, Hturn.
  - intros. apply acting_player_on_turn.
  - intros ctx game_name move config games s Hget Hgame Hother.
    apply (move_piece_not_acting _ _ _ _ _ _ Hget Hgame).
    rewrite acting_player_on_turn.
    destruct (Discord.get_member ctx _) as [m|] eqn:Hm; [|done].
    apply get_member_id in Hm. simpl. unfold Discord.member_eq.
    apply N.eqb_neq. congruence.
Qed.

(** C8.  The fifty-move flag of a game holds exactly when the half-move
    clock of its position is at least 100.  A successfully applied move that
    captures or moves a pawn resets the clock to 0 and so clears the flag;
    any other move advances the clock by one, so the flag is set by the move
    that takes the clock to 100 and then stays set until a capture or pawn
    move. *)
Theorem fifty_moves_flag_follows_clock (s : Session) :
  (can_claim_fifty_moves s = true ↔ 100 ≤ halfmove_clock (position s)) ∧
  ∀ text over text' s',
    move_piece s text = inr (over, text', s') →
    ∃ m, history s' = history s ++ [m] ∧
      (is_zeroing m = true →
         halfmove_clock (position s') = 0 ∧ can_claim_fifty_moves s' = false) ∧
      (is_zeroing m = false →
         halfmove_clock (position s') = S (halfmove_clock (position s)) ∧
         (can_claim_fifty_moves s = true → can_claim_fifty_moves s' = true) ∧
         (can_claim_fifty_moves s = false →
            (can_claim_fifty_moves s' = true ↔ halfmove_clock (position s') = 100))).
Proof.
  assert (∀ x, can_claim_fifty_moves x = true ↔ 100 ≤ halfmove_clock (position x))
    as Hflag by (intros; apply bool_decide_eq_true).
  split; [apply Hflag|].
  intros text over text' s' (m & _ & _ & Hpos & Hhist & _)%move_piece_inv.
  exists m. split; [done|].
  assert (halfmove_clock (position s')
          = if is_zeroing m then 0 else S (halfmove_clock (position s))) as Hclock
    by by rewrite Hpos.
  split; intros Hzero; rewrite Hzero in Hclock.
  - split; [done|]. apply not_true_is_false. rewrite Hflag. lia.
  - split; [done|]. split.
    + rewrite !Hflag. lia.
    + intros Hnot%not_true_iff_false. rewrite Hflag in Hnot. rewrite Hflag. lia.
Qed.

End EngineClaims.

(** ** The commands run in a channel *)

Section Runs.
Import Engine Reference Scenario Discord ChessGame.

Lemma lobby_games : _get_games lobby 7 = Some {[ "game" := opening ]}.
Proof. apply get_set_games; [apply pickle_round_trips|apply pickle_never_empty]. Qed.

Lemma lobby_opening :
  ({[ "game" := opening ]} : gmap string Session) !! "game" = Some opening.
Proof. apply lookup_singleton_eq. Qed.

Lemma lobby_after_resignation_games :
  _get_games lobby_after_resignation 7 = Some (delete "game" {[ "game" := opening ]}).
Proof. apply get_set_games; [apply pickle_round_trips|apply pickle_never_empty]. Qed.

(** alice challenges bob a second time without naming the game: the name
    "game" is taken, so the new game is saved as "game1". *)
Example second_game_is_game1 :
  start_game 1 (called_by alice) bob None None lobby
  = (Returned [_display_board
       (add_field_inline "New Game" "<@2>'s (White's) turn is first" false
          (new_embed "Chess" "Game: game1")) opening],
     _set_games lobby 7 (<["game1" := opening]> {[ "game" := opening ]})).
Proof.
  assert (unique_suffix 1 (default ∅ (_get_games lobby (channel (called_by alice))))
            (requested_name None) 0 EmptyString = Some "1") as Hrun.
  { cbn [channel called_by]. rewrite lobby_games.
    cbn [default from_option Datatypes.id requested_name unique_suffix].
    change ("game" +:+ EmptyString) with "game". rewrite lobby_opening.
    change ("game" +:+ pretty (0 + 1)) with "game1".
    by rewrite lookup_singleton_ne. }
  rewrite (start_game_unfold 1 (called_by alice) bob None None lobby "1" eq_refl Hrun).
  cbn [channel called_by]. by rewrite lobby_games.
Qed.

Lemma start_game_picks_fresh_name_witness :
  size (default ∅ (_get_games lobby 7)) ≤ 1 ∧
  (start_game 1 (called_by alice) bob None None lobby).1 ≠ Diverged ∧
  ∃ k,
    default ∅ (_get_games lobby 7) !! candidate "game" k = None ∧
    (∀ j, j < k → is_Some (default ∅ (_get_games lobby 7) !! candidate "game" j)) ∧
    (start_game 1 (called_by alice) bob None None lobby).2
    = _set_games lobby 7 (<[candidate "game" k := opening]> (default ∅ (_get_games lobby 7))).
Proof.
  assert (size (default ∅ (_get_games lobby 7)) ≤ 1) as Hsize.
  { rewrite lobby_games. simpl. by rewrite map_size_singleton. }
  split; [exact Hsize|].
  destruct (start_game_picks_fresh_name 1 (called_by alice) bob None None lobby Hsize)
    as [Hruns Hsaves].
  split; [exact Hruns|].
  destruct (Hsaves opening eq_refl eq_refl) as (k & Hfree & Hlow & Hrun & _).
  exists k. split; [exact Hfree|]. split; [exact Hlow|]. by rewrite Hrun.
Defined.

Lemma start_game_rejects_self_challenge_witness :
  id (author (called_by alice)) = id alice ∧
  start_game 0 (called_by alice) alice None None lobby
  = (Returned [SendText "You cannot play chess with yourself"], lobby).
Proof.
  split; [reflexivity|].
  exact (start_game_rejects_self_challenge 0 (called_by alice) alice None None lobby eq_refl).
Defined.

Lemma unknown_variant_is_rejected_witness :
  ("Atomic" ∉ variants) ∧
  id (author (called_by alice)) ≠ id bob ∧
  size (default ∅ (_get_games (∅ : Config) (channel (called_by alice)))) ≤ 0 ∧
  new 1 2 (Some "Atomic") = inl UnknownVariant ∧
  ∃ k,
    start_game 0 (called_by alice) bob None (Some "Atomic") ∅
    = (Returned [SendEmbed
         (add_field "Invalid Game Type:" "Atomic"
            (new_embed "Chess" ("Game: " +:+ candidate "game" k)))],
       ∅).
Proof.
  assert ("Atomic" ∉ variants) as Htag
    by (simpl; intros Hin%list_elem_of_singleton; discriminate Hin).
  assert (id (author (called_by alice)) ≠ id bob) as Hne by (simpl; lia).
  assert (size (default ∅ (_get_games (∅ : Config) (channel (called_by alice)))) ≤ 0)
    as Hsize by (vm_compute; lia).
  split; [exact Htag|]. split; [exact Hne|]. split; [exact Hsize|].
  exact (unknown_variant_is_rejected 0 (called_by alice) bob None "Atomic" ∅
           Htag Hne Hsize).
Defined.

Lemma bob_resigns :
  ∃ sent,
    resign (called_by bob) "game" true None lobby = (Returned sent, lobby_after_resignation).
Proof.
  destruct (resign_announces (called_by bob) "game" true None lobby
              {[ "game" := opening ]} opening bob alice lobby_games lobby_opening)
    as (sent & e & Hrun & _); [reflexivity..|by left|].
  by exists sent.
Qed.

Lemma bob_resigning_ends_game : ends_game 7 "game" lobby lobby_after_resignation.
Proof.
  destruct bob_resigns as [sent Hrun].
  apply (ends_by_resignation 7 "game" lobby (called_by bob) true None
           {[ "game" := opening ]} opening sent lobby_after_resignation);
    [reflexivity|exact lobby_games|exact lobby_opening|reflexivity|by left|exact Hrun].
Qed.

Lemma finished_game_is_forgotten_witness :
  jsonpickle.round_trips (T := Session) ∧
  jsonpickle.never_empty (T := Session) ∧
  ends_game 7 "game" lobby lobby_after_resignation ∧
  channel (called_by alice) = 7%N ∧
  (∀ move,
     move_piece (called_by alice) "game" move lobby_after_resignation
     = (missing_game_reply "Game: game", lobby_after_resignation)) ∧
  (∀ claim_type,
     claim_draw (called_by alice) "game" claim_type lobby_after_resignation
     = (missing_game_reply "Claim Draw", lobby_after_resignation)).
Proof.
  split; [exact pickle_round_trips|]. split; [exact pickle_never_empty|].
  split; [exact bob_resigning_ends_game|]. split; [reflexivity|].
  exact (finished_game_is_forgotten 7 "game" lobby lobby_after_resignation
           pickle_round_trips pickle_never_empty bob_resigning_ends_game
           (called_by alice) eq_refl).
Defined.

(** Against C1 as stated: after bob has resigned, alice's move on the game
    is not answered by any game-over error.  The reply is the one embed
    "Game does not exist", word for word what the same command gets in a
    channel whose dictionary never held a game of that name. *)
Lemma finished_game_reply_is_not_game_over :
  (resign (called_by bob) "game" true None lobby).2 = lobby_after_resignation ∧
  ∃ e,
    move_piece (called_by alice) "game" "Nf6" lobby_after_resignation
    = (Returned [SendEmbed e], lobby_after_resignation) ∧
    has_field "Game does not exist" e = true ∧
    has_field "Game Over!" e = false ∧
    (move_piece (called_by alice) "game" "Nf6" (_set_games ∅ 7 ∅)).1
    = Returned [SendEmbed e].
Proof.
  split; [by destruct bob_resigns as [sent ->]|].
  eexists. split; [|split; [|split]].
  - apply (move_piece_missing (called_by alice) _ _ _ _ lobby_after_resignation_games).
    apply lookup_delete_eq.
  - reflexivity.
  - reflexivity.
  - rewrite (move_piece_missing (called_by alice) "game" "Nf6" (_set_games ∅ 7 ∅) ∅);
      [reflexivity| |apply lookup_empty].
    apply get_set_games; [apply pickle_round_trips|apply pickle_never_empty].
Qed.

Lemma claim_draw_follows_flag_witness :
  _get_games lobby (channel (called_by carol)) = Some {[ "game" := opening ]} ∧
  ({[ "game" := opening ]} : gmap string Session) !! "game" = Some opening ∧
  claim_flag "Fifty moves" opening = false ∧
  claim_draw (called_by carol) "game" "Fifty moves" lobby
  = (Returned [SendEmbed
       (add_field "Fifty moves"
          ("Unable to claim " +:+ "Fifty moves" +:+ LF +:+
           "Fifty moves" +:+ " is not a valid reason, the game is not drawn.")
          (new_embed "Chess" "Claim Draw"))],
     lobby) ∧
  saved_game (claim_draw (called_by carol) "game" "Fifty moves" lobby).2
    (channel (called_by carol)) "game" = Some opening.
Proof.
  split; [exact lobby_games|]. split; [exact lobby_opening|]. split; [reflexivity|].
  exact (proj1 (proj2 (claim_draw_follows_flag (called_by carol) "game" "Fifty moves"
                         lobby {[ "game" := opening ]} opening
                         lobby_games lobby_opening)) eq_refl).
Defined.

(** bob is white and on turn, but "Nf6" is no move of a white knight. *)
Lemma bob_plays_illegal_move : move_failure (called_by bob) opening "Nf6".
Proof. by apply (engine_rejects _ _ _ opening). Qed.

Lemma failed_move_changes_nothing_witness :
  _get_games lobby (channel (called_by bob)) = Some {[ "game" := opening ]} ∧
  ({[ "game" := opening ]} : gmap string Session) !! "game" = Some opening ∧
  move_failure (called_by bob) opening "Nf6" ∧
  (move_piece (called_by bob) "game" "Nf6" lobby).2 = lobby ∧
  saved_game (move_piece (called_by bob) "game" "Nf6" lobby).2
    (channel (called_by bob)) "game" = Some opening.
Proof.
  split; [exact lobby_games|]. split; [exact lobby_opening|].
  split; [exact bob_plays_illegal_move|].
  exact (proj1 (failed_move_changes_nothing (called_by bob) "game" "Nf6" lobby)
           {[ "game" := opening ]} opening
           lobby_games lobby_opening bob_plays_illegal_move).
Defined.

(** alice is black and not on turn; she resigns with [confirm] set. *)
Lemma resign_ends_game_once_confirmed_witness :
  _get_games lobby (channel (called_by alice)) = Some {[ "game" := opening ]} ∧
  ({[ "game" := opening ]} : gmap string Session) !! "game" = Some opening ∧
  get_member (called_by alice) (Game.player_white_id opening) = Some bob ∧
  get_member (called_by alice) (Game.player_black_id opening) = Some alice ∧
  (is_author (called_by alice) (Some bob) || is_author (called_by alice) (Some alice)) = true ∧
  (true = true ∨ @None bool = Some true) ∧
  ∃ sent e,
    resign (called_by alice) "game" true None lobby
    = (Returned sent, _set_games lobby (channel (called_by alice))
                        (delete "game" {[ "game" := opening ]})) ∧
    last_embed (Returned sent) = Some e ∧
    last (fields e)
    = Some (if is_author (called_by alice) (Some bob)
            then resignation bob alice true
            else resignation alice bob false).
Proof.
  split; [exact lobby_games|]. split; [exact lobby_opening|].
  split; [reflexivity|]. split; [reflexivity|]. split; [reflexivity|].
  split; [left; reflexivity|].
  apply (resign_ends_game_once_confirmed (called_by alice) "game" true None lobby
           {[ "game" := opening ]} opening bob alice);
    [exact lobby_games|exact lobby_opening|reflexivity..|left; reflexivity].
Defined.

(** Against C4 as stated: alice asks to resign without [confirm] and then
    answers no to the prompt.  The command returns, nothing is saved, and
    the game is still there. *)
Lemma declined_resignation_keeps_game :
  ∃ sent,
    resign (called_by alice) "game" false (Some false) lobby = (Returned sent, lobby) ∧
    saved_game lobby 7 "game" = Some opening.
Proof.
  eexists. split.
  - unfold resign. cbn [channel called_by]. rewrite lobby_games, lobby_opening.
    reflexivity.
  - unfold saved_game. rewrite lobby_games. apply lobby_opening.
Qed.

Lemma white_moves_first_then_turns_alternate_witness :
  new 1 2 None = inr opening ∧
  play opening ["Nf3"; "Nf6"; "Ng5"] = Some (played opening ["Nf3"; "Nf6"; "Ng5"]) ∧
  order opening = (White, 2%N, 1%N) ∧
  turn (played opening ["Nf3"; "Nf6"; "Ng5"]) = Black.
Proof.
  split; [reflexivity|]. split; [reflexivity|].
  destruct white_moves_first_then_turns_alternate as (Hfresh & _ & Hplay & _).
  split.
  - exact (Hfresh 1%N 2%N None opening eq_refl).
  - exact (Hplay 1%N 2%N None opening ["Nf3"; "Nf6"; "Ng5"] _ eq_refl eq_refl).
Defined.

Lemma fifty_moves_flag_follows_clock_witness :
  Engine.move_piece shuffled "Nf6"
  = inr (false, "<@1> (Black) 100. Nf6", played shuffled ["Nf6"]) ∧
  can_claim_fifty_moves shuffled = false ∧
  ∃ m, history (played shuffled ["Nf6"]) = history shuffled ++ [m] ∧
    (is_zeroing m = true →
       halfmove_clock (position (played shuffled ["Nf6"])) = 0 ∧
       can_claim_fifty_moves (played shuffled ["Nf6"]) = false) ∧
    (is_zeroing m = false →
       halfmove_clock (position (played shuffled ["Nf6"]))
       = S (halfmove_clock (position shuffled)) ∧
       (can_claim_fifty_moves shuffled = true →
          can_claim_fifty_moves (played shuffled ["Nf6"]) = true) ∧
       (can_claim_fifty_moves shuffled = false →
          (can_claim_fifty_moves (played shuffled ["Nf6"]) = true ↔
           halfmove_clock (position (played shuffled ["Nf6"])) = 100))).
Proof.
  split; [reflexivity|]. split; [reflexivity|].
  exact (proj2 (fifty_moves_flag_follows_clock shuffled)
           "Nf6" false "<@1> (Black) 100. Nf6" (played shuffled ["Nf6"]) eq_refl).
Defined.

(** The move that takes the clock from 99 to 100 sets the flag. *)
Example flag_set_at_100 :
  can_claim_fifty_moves shuffled = false ∧
  halfmove_clock (position (played shuffled ["Nf6"])) = 100 ∧
  can_claim_fifty_moves (played shuffled ["Nf6"]) = true.
Proof. by vm_compute. Qed.

End Runs.

(** * Further properties of the commands *)

(** ** Strings *)

Lemma string_app_nil_r (s : string) : s +:+ EmptyString = s.
Proof.
  induction s as [|a s IH]; [done|].
  change (String a s +:+ EmptyString) with (String a (s +:+ EmptyString)).
  by rewrite IH.
Qed.

Lemma string_app_assoc (s1 s2 s3 : string) : (s1 +:+ s2) +:+ s3 = s1 +:+ s2 +:+ s3.
Proof.
  induction s1 as [|a s1 IH]; [done|].
  change ((String a s1 +:+ s2) +:+ s3) with (String a ((s1 +:+ s2) +:+ s3)).
  by rewrite IH.
Qed.


Section Stores.
Import Discord ChessGame.
Context {T : Type} `{!Game.API T} `{!jsonpickle.Pickle T}.

Lemma start_game_saves_at_most fuel ctx other_player game_name game_type config :
  saves_at_most (channel ctx) config
    (start_game fuel ctx other_player game_name game_type config).2.
Proof.
  unfold start_game. repeat case_match; simpl; (by left) || (right; eauto).
Qed.

Lemma move_piece_saves_at_most ctx game_name move config :
  saves_at_most (channel ctx) config (move_piece ctx game_name move config).2.
Proof.
  unfold move_piece.
  destruct (_get_games config (channel ctx)) as [games|]; [|by left].
  destruct (games !! game_name) as [game|]; [|by left].
  destruct (Game.order game) as [[turn_color player_turn] player_next].
  destruct (player_turn =? Game.player_white_id game)%N;
    repeat case_match; simplify_eq/=; (by left) || (right; eauto).
Qed.

Lemma resign_saves_at_most ctx game_name confirm reaction config :
  saves_at_most (channel ctx) config (resign ctx game_name confirm reaction config).2.
Proof.
  unfold resign. repeat case_match; simplify_eq/=; (by left) || (right; eauto).
Qed.

Lemma claim_draw_saves_at_most ctx game_name claim_type config :
  saves_at_most (channel ctx) config (claim_draw ctx game_name claim_type config).2.
Proof.
  unfold claim_draw. repeat case_match; simplify_eq/=; (by left) || (right; eauto).
Qed.

Lemma by_agreement_saves_at_most ctx game_name reaction config :
  saves_at_most (channel ctx) config (by_agreement ctx game_name reaction config).2.
Proof.
  unfold by_agreement. repeat case_match; simplify_eq/=; (by left) || (right; eauto).
Qed.

Lemma saves_at_most_elsewhere channel elsewhere config config' :
  saves_at_most channel config config' → elsewhere ≠ channel →
  config' !! elsewhere = config !! elsewhere.
Proof.
  intros [->|[games ->]] Hne; [done|]. unfold _set_games. by rewrite lookup_insert_ne.
Qed.

Lemma saves_at_most_initialised channel channel' config config' :
  jsonpickle.never_empty →
  saves_at_most channel config config' →
  is_Some (_get_games config channel') → is_Some (_get_games config' channel').
Proof.
  intros Hfull [->|[games ->]] Hsome; [done|].
  unfold _get_games, _set_games in *.
  destruct (decide (channel = channel')) as [->|Hne].
  - rewrite lookup_insert_eq, Hfull. eauto.
  - by rewrite lookup_insert_ne.
Qed.

(** X1.  A command reads and writes the saved games of the channel it is
    called in only: whatever [chess start], [chess move], [chess resign],
    [chess draw claim] or [chess draw byagreement] do, the value saved for
    any other channel is untouched. *)
Theorem commands_leave_other_channels_alone
    fuel ctx other_player game_name_opt game_type game_name move confirm reaction
    claim_type config elsewhere :
  elsewhere ≠ channel ctx →
  (start_game fuel ctx other_player game_name_opt game_type config).2 !! elsewhere
    = config !! elsewhere ∧
  (move_piece ctx game_name move config).2 !! elsewhere = config !! elsewhere ∧
  (resign ctx game_name confirm reaction config).2 !! elsewhere = config !! elsewhere ∧
  (claim_draw ctx game_name claim_type config).2 !! elsewhere = config !! elsewhere ∧
  (by_agreement ctx game_name reaction config).2 !! elsewhere = config !! elsewhere.
Proof.
  intros Hne. repeat split;
    eapply saves_at_most_elsewhere; eauto using start_game_saves_at_most,
      move_piece_saves_at_most, resign_saves_at_most, claim_draw_saves_at_most,
      by_agreement_saves_at_most.
Qed.

(** X2.  In a channel for which nothing is saved (no value, or the empty
    text), [chess move], [chess resign], [chess draw claim] and
    [chess draw byagreement] do not answer "Game does not exist": subscripting
    [None] raises [TypeError], which the [KeyError] handler does not catch, so
    the command dies before sending anything.  [chess start] alone works
    there, and saves a dictionary holding just the new game under the
    requested (or default) name, whatever the fuel. *)
Theorem nothing_saved_raises_TypeError
    fuel ctx other_player game_name_opt game_type game game_name move confirm reaction
    claim_type config :
  config !! channel ctx = None ∨ config !! channel ctx = Some EmptyString →
  move_piece ctx game_name move config = (Raised TypeError [], config) ∧
  resign ctx game_name confirm reaction config = (Raised TypeError [], config) ∧
  claim_draw ctx game_name claim_type config = (Raised TypeError [], config) ∧
  by_agreement ctx game_name reaction config = (Raised TypeError [], config) ∧
  (member_eq (author ctx) other_player = false →
   Game.init (id (author ctx)) (id other_player) game_type = Some game →
   (start_game fuel ctx other_player game_name_opt game_type config).2
   = _set_games config (channel ctx) {[ requested_name game_name_opt := game ]}).
Proof.
  intros Hnone.
  assert (_get_games config (channel ctx) = None) as Hget
    by (unfold _get_games; by destruct Hnone as [-> | ->]).
  unfold move_piece, resign, claim_draw, by_agreement. rewrite !Hget.
  repeat split. intros Hne Hinit.
  assert (unique_suffix fuel (default ∅ (_get_games config (channel ctx)))
            (requested_name game_name_opt) 0 EmptyString = Some EmptyString) as Hrun.
  { rewrite Hget. simpl. destruct fuel; simpl; by rewrite lookup_empty. }
  rewrite (start_game_unfold _ _ _ _ _ _ _ Hne Hrun). cbv zeta.
  rewrite Hinit, Hget. simpl. by rewrite string_app_nil_r, insert_empty.
Qed.

(** X3.  Once a dictionary is saved for a channel, it stays readable: no
    command leaves the channel in the state where the others raise
    [TypeError], not even the command that removes the last game (provided
    the pickle never produces the empty text). *)
Theorem saved_channel_stays_readable
    fuel ctx other_player game_name_opt game_type game_name move confirm reaction
    claim_type config channel' :
  jsonpickle.never_empty →
  is_Some (_get_games config channel') →
  is_Some (_get_games
    (start_game fuel ctx other_player game_name_opt game_type config).2 channel') ∧
  is_Some (_get_games (move_piece ctx game_name move config).2 channel') ∧
  is_Some (_get_games (resign ctx game_name confirm reaction config).2 channel') ∧
  is_Some (_get_games (claim_draw ctx game_name claim_type config).2 channel') ∧
  is_Some (_get_games (by_agreement ctx game_name reaction config).2 channel').
Proof.
  intros Hfull Hsome. repeat split;
    eapply saves_at_most_initialised; eauto using start_game_saves_at_most,
      move_piece_saves_at_most, resign_saves_at_most, claim_draw_saves_at_most,
      by_agreement_saves_at_most.
Qed.

End Stores.

Section Moves.
Import Discord ChessGame.
Context {T : Type} `{!Game.API T} `{!jsonpickle.Pickle T}.

Lemma has_field_add name name' value inline e :
  has_field name (add_field_inline name' value inline e)
  = has_field name e || String.eqb name' name.
Proof.
  unfold has_field, add_field_inline. simpl.
  rewrite existsb_app. simpl. by rewrite orb_false_r.
Qed.

Lemma move_heading_not_game_over rest :
  String.eqb ("Move: " +:+ rest) "Game Over!" = false.
Proof. by change ("Move: " +:+ rest) with (String "M" ("ove: " +:+ rest)). Qed.

Lemma move_heading_not_draw rest :
  String.eqb ("Move: " +:+ rest) "Draw can be claimed" = false.
Proof. by change ("Move: " +:+ rest) with (String "M" ("ove: " +:+ rest)). Qed.

(** X4.  When the player on turn makes a move the engine accepts, the cog
    answers with the board and saves the dictionary in which that game, and
    no other, has changed: the game is replaced by its state after the move,
    or removed if the engine reports the game over.  The reply carries the
    field "Game Over!" exactly when the game was removed, and the field "Draw
    can be claimed" exactly when the game says a draw can be claimed. *)
Theorem accepted_move_updates_one_game
    ctx game_name move config games game over value_move game' :
  _get_games config (channel ctx) = Some games →
  games !! game_name = Some game →
  is_author ctx (acting_player ctx game) = true →
  Game.move_piece game move = (Some (over, value_move), game') →
  let games' := if over then delete game_name games else <[game_name := game']> games in
  ∃ embed,
    move_piece ctx game_name move config
    = (Returned [_display_board embed game'], _set_games config (channel ctx) games') ∧
    has_field "Game Over!" embed = over ∧
    has_field "Draw can be claimed" embed = Game.can_claim_draw game' ∧
    games' !! game_name = (if over then None else Some game') ∧
    ∀ other, other ≠ game_name → games' !! other = games !! other.
Proof.
  intros Hget Hgame Hturn Hmove games'.
  assert (games' !! game_name = (if over then None else Some game') ∧
          ∀ other, other ≠ game_name → games' !! other = games !! other) as Hdict.
  { unfold games'. destruct over.
    - split; [apply lookup_delete_eq|]. intros other ?. by rewrite lookup_delete_ne.
    - split; [apply lookup_insert_eq|]. intros other ?. by rewrite lookup_insert_ne. }
  unfold move_piece. rewrite Hget, Hgame. unfold acting_player in Hturn.
  destruct (Game.order game) as [[turn_color player_turn] player_next]; simpl in *.
  destruct (player_turn =? Game.player_white_id game)%N;
    [destruct (get_member ctx (Game.player_white_id game)) as [turn|]
    |destruct (get_member ctx (Game.player_black_id game)) as [turn|]];
    simpl in *; try done; rewrite Hturn, Hmove; simpl;
    (eexists; split; [|split; [|split; [|exact Hdict]]];
     [ f_equal; unfold games'; destruct over; by rewrite ?delete_insert_eq
     | destruct over, (Game.can_claim_draw game'); unfold add_field;
       rewrite ?has_field_add, move_heading_not_game_over; reflexivity
     | destruct over, (Game.can_claim_draw game'); unfold add_field;
       rewrite ?has_field_add, move_heading_not_draw; reflexivity ]).
Qed.

(** X5.  A draw the reply to a move advertises can be claimed at once: after
    an accepted move that does not end the game, if the game's flag for a
    claim type is set, then [chess draw claim] with that type, called by
    anyone in the channel, is granted and removes the game (the pickle being
    taken to round-trip). *)
Theorem claim_after_move_is_granted
    ctx ctx' game_name move claim_type config games game value_move game' :
  jsonpickle.round_trips → jsonpickle.never_empty →
  _get_games config (channel ctx) = Some games →
  games !! game_name = Some game →
  is_author ctx (acting_player ctx game) = true →
  Game.move_piece game move = (Some (false, value_move), game') →
  claim_flag claim_type game' = true →
  channel ctx' = channel ctx →
  let config' := (move_piece ctx game_name move config).2 in
  saved_game config' (channel ctx) game_name = Some game' ∧
  saved_game (claim_draw ctx' game_name claim_type config').2 (channel ctx) game_name
  = None ∧
  ∃ reason,
    (claim_draw ctx' game_name claim_type config').1
    = Returned [SendEmbed
        (add_field ("Draw! - " +:+ claim_type) reason (new_embed "Chess" "Claim Draw"))].
Proof.
  intros Hround Hfull Hget Hgame Hturn Hmove Hflag Hchannel config'.
  assert (config' = _set_games config (channel ctx) (<[game_name := game']> games))
    as Hconfig by apply (move_piece_applied _ _ _ _ _ _ _ _ _ Hget Hgame Hturn Hmove).
  assert (_get_games config' (channel ctx') = Some (<[game_name := game']> games))
    as Hget' by (rewrite Hconfig, Hchannel; by apply get_set_games).
  split; [|split].
  - unfold saved_game. rewrite <- Hchannel, Hget'. simpl. apply lookup_insert_eq.
  - destruct (claim_draw_granted ctx' game_name claim_type config' _ game'
                Hget' (lookup_insert_eq _ _ _) Hflag) as [reason ->].
    unfold saved_game. simpl. rewrite <- Hchannel, get_set_games by done.
    simpl. apply lookup_delete_eq.
  - destruct (claim_draw_granted ctx' game_name claim_type config' _ game'
                Hget' (lookup_insert_eq _ _ _) Hflag) as [reason ->].
    by exists reason.
Qed.

End Moves.

Section Offers.
Import Discord ChessGame.
Context {T : Type} `{!Game.API T} `{!jsonpickle.Pickle T}.

(** X6.  [chess draw byagreement] on a saved game changes the saved games in
    one case only: the caller is one of the two players and the offer is
    accepted; then exactly that game is removed.  A caller who is no player
    is told so and no offer is posted; a declined or unanswered offer leaves
    everything as it was. *)
Theorem draw_offer_needs_player_and_acceptance
    ctx game_name reaction config games game :
  _get_games config (channel ctx) = Some games →
  games !! game_name = Some game →
  let is_player :=
    id (author ctx) = Game.player_black_id game ∨
    id (author ctx) = Game.player_white_id game in
  (¬ is_player →
     by_agreement ctx game_name reaction config
     = (Returned [SendEmbed
          (add_field "You are not part of this game"
             "You are not able to offer a draw if you are not one of the players."
             (new_embed "Chess" "Offer Draw"))],
        config)) ∧
  (reaction ≠ Some true → (by_agreement ctx game_name reaction config).2 = config) ∧
  (is_player → reaction = Some true →
     (by_agreement ctx game_name reaction config).2
     = _set_games config (channel ctx) (delete game_name games) ∧
     ∃ offer,
       (by_agreement ctx game_name reaction config).1
       = Returned [SendEmbed offer;
                   EditEmbed (add_field "Response:" "Draw accepted!" offer);
                   ClearReactions]).
Proof.
  intros Hget Hgame is_player. unfold by_agreement. rewrite Hget, Hgame.
  split; [|split].
  - intros Hnot.
    destruct (N.eqb_spec (id (author ctx)) (Game.player_black_id game));
      [by destruct Hnot; left|].
    destruct (N.eqb_spec (id (author ctx)) (Game.player_white_id game));
      [by destruct Hnot; right|done].
  - intros Hno. repeat case_match; simplify_eq/=; done.
  - intros Hplayer ->.
    assert (∃ other,
      (if (id (author ctx) =? Game.player_black_id game)%N
       then Some (Game.player_white_id game)
       else if (id (author ctx) =? Game.player_white_id game)%N
            then Some (Game.player_black_id game) else None) = Some other)
      as [other ->].
    { destruct Hplayer as [-> | ->]; rewrite N.eqb_refl; [eauto|].
      destruct (_ =? _)%N; eauto. }
    simpl. eauto.
Qed.

(** X7.  Only the two players of a game can resign it: for any other caller
    [chess resign] changes nothing and does not even ask for confirmation.
    The caller is told "Not player", unless one of the players has left the
    guild, in which case the command dies on reading that player's name. *)
Theorem resign_by_outsider_changes_nothing
    ctx game_name confirm reaction config games game :
  _get_games config (channel ctx) = Some games →
  games !! game_name = Some game →
  is_author ctx (get_member ctx (Game.player_white_id game)) = false →
  is_author ctx (get_member ctx (Game.player_black_id game)) = false →
  (resign ctx game_name confirm reaction config).2 = config ∧
  ((∃ black white,
      get_member ctx (Game.player_black_id game) = Some black ∧
      get_member ctx (Game.player_white_id game) = Some white ∧
      (resign ctx game_name confirm reaction config).1
      = Returned [SendEmbed
          (add_field (name (author ctx) +:+ " - Not player")
             (name (author ctx) +:+ " you are not a part of the game!" +:+ LF +:+
              "Only " +:+ name black +:+ " (Black) and " +:+ name white +:+
              " (White) " +:+ "are able to play this game")
             (new_embed "Chess" ("Game: " +:+ game_name)))]) ∨
   ((get_member ctx (Game.player_black_id game) = None ∨
     get_member ctx (Game.player_white_id game) = None) ∧
    (resign ctx game_name confirm reaction config).1 = Raised AttributeError [])).
Proof.
  intros Hget Hgame Hwhite Hblack. unfold resign. rewrite Hget, Hgame, Hwhite, Hblack.
  simpl.
  destruct (get_member ctx (Game.player_black_id game)) as [black|],
           (get_member ctx (Game.player_white_id game)) as [white|]; simpl;
    (split; [done|]); [left; by exists black, white|right; split; eauto..].
Qed.

(** X8.  A player cannot resign once the opponent has left the guild: the
    announcement reads the opponent's name, so even a confirmed resignation
    dies with [AttributeError] before the game is removed, and the saved
    games stay as they were.  If the confirmation was asked for, the prompt
    is all that was sent. *)
Theorem resign_fails_when_opponent_left
    ctx game_name confirm reaction config games game :
  _get_games config (channel ctx) = Some games →
  games !! game_name = Some game →
  (is_author ctx (get_member ctx (Game.player_white_id game)) = true ∧
   get_member ctx (Game.player_black_id game) = None) ∨
  (is_author ctx (get_member ctx (Game.player_black_id game)) = true ∧
   get_member ctx (Game.player_white_id game) = None) →
  confirm = true ∨ reaction = Some true →
  resign ctx game_name confirm reaction config
  = (Raised AttributeError
       (if confirm then []
        else [SendEmbed (add_field "Please confirm." "Would you like to resign?"
                           (new_embed "Chess" ("Game: " +:+ game_name)))]),
     config).
Proof.
  intros Hget Hgame Hleft Hyes. unfold resign. rewrite Hget, Hgame.
  destruct Hleft as [[Hme Hgone]|[Hme Hgone]]; rewrite Hgone in *.
  - destruct (get_member ctx (Game.player_white_id game)) as [white|]; [|done].
    simpl in *. rewrite Hme. simpl.
    destruct confirm; simpl; [done|]. by destruct Hyes as [? | ->].
  - destruct (get_member ctx (Game.player_black_id game)) as [black|]; [|done].
    simpl in *. rewrite Hme. simpl.
    destruct confirm; simpl; [done|]. by destruct Hyes as [? | ->].
Qed.

End Offers.

Section Starts.
Import Discord ChessGame.
Context {T : Type} `{!Game.API T} `{!jsonpickle.Pickle T}.

(** X9.  A game that [chess start] creates can be read back under the name
    the reply announces, and every game that was saved in the channel before
    can still be read back, unchanged (the pickle being taken to
    round-trip). *)
Theorem started_game_is_saved_under_announced_name
    fuel ctx other_player game_name game_type config game :
  jsonpickle.round_trips → jsonpickle.never_empty →
  member_eq (author ctx) other_player = false →
  Game.init (id (author ctx)) (id other_player) game_type = Some game →
  size (default ∅ (_get_games config (channel ctx))) ≤ fuel →
  let result := start_game fuel ctx other_player game_name game_type config in
  ∃ fresh embed,
    result.1 = Returned [SendFile embed "board.png" (Game.get_board_image game)] ∧
    description embed = "Game: " +:+ fresh ∧
    saved_game config (channel ctx) fresh = None ∧
    saved_game result.2 (channel ctx) fresh = Some game ∧
    ∀ n g, saved_game config (channel ctx) n = Some g →
           saved_game result.2 (channel ctx) n = Some g.
Proof.
  intros Hround Hfull Hne Hinit Hfuel result.
  destruct (unique_suffix_terminates _ (requested_name game_name) fuel Hfuel)
    as (k & Hrun & Hfree & _).
  unfold result. rewrite (start_game_unfold _ _ _ _ _ _ _ Hne Hrun). cbv zeta.
  rewrite Hinit. fold (candidate (requested_name game_name) k).
  eexists _, _. split; [reflexivity|]. split; [reflexivity|].
  unfold saved_game. cbn [fst snd]. rewrite get_set_games by done. simpl.
  destruct (_get_games config (channel ctx)) as [games|]; simpl in *.
  - split; [done|]. split; [apply lookup_insert_eq|].
    intros n g Hn. rewrite lookup_insert_ne; [done|]. intros <-. congruence.
  - split; [done|]. split; [apply lookup_insert_eq|]. done.
Qed.

(** X10.  The name of a finished game is free again: once a game has come to
    its end, [chess start] asked for that very name saves the new game under
    it, without a suffix, whatever the fuel (the pickle being taken to
    round-trip). *)
Theorem finished_game_name_can_be_reused
    fuel ctx other_player game_name game_type config config' game :
  jsonpickle.round_trips → jsonpickle.never_empty →
  ends_game (channel ctx) game_name config config' →
  truthy game_name = true →
  member_eq (author ctx) other_player = false →
  Game.init (id (author ctx)) (id other_player) game_type = Some game →
  let result := start_game fuel ctx other_player (Some game_name) game_type config' in
  (∃ embed,
     result.1 = Returned [SendFile embed "board.png" (Game.get_board_image game)] ∧
     description embed = "Game: " +:+ game_name) ∧
  saved_game result.2 (channel ctx) game_name = Some game.
Proof.
  intros Hround Hfull Hend Hname Hne Hinit result.
  destruct (ends_game_deletes _ _ _ _ Hend) as (games & _ & ->).
  assert (unique_suffix fuel
            (default ∅ (_get_games (_set_games config (channel ctx) (delete game_name games))
                          (channel ctx)))
            (requested_name (Some game_name)) 0 EmptyString = Some EmptyString) as Hrun.
  { rewrite get_set_games by done. simpl. rewrite Hname.
    destruct fuel; simpl; by rewrite string_app_nil_r, lookup_delete_eq. }
  unfold result. rewrite (start_game_unfold _ _ _ _ _ _ _ Hne Hrun). cbv zeta.
  rewrite Hinit. simpl. rewrite Hname, string_app_nil_r. split; [eauto|].
  unfold saved_game. rewrite !get_set_games by done. simpl. apply lookup_insert_eq.
Qed.

End Starts.

(** ** [chess list] *)

Section Listing.
Import Discord ChessGame.
Context {T : Type} `{!Game.API T} `{!jsonpickle.Pickle T}.
Variable ctx : Context.
Variable items : gmap string T → list (string * T).

Lemma join_app (ps qs : list string) : join (ps ++ qs) = join ps +:+ join qs.
Proof.
  induction ps as [|p ps IH]; [done|]. simpl. by rewrite IH, string_app_assoc.
Qed.

Lemma sent_fields_snoc sent e :
  sent_fields (sent ++ [SendEmbed e]) = sent_fields sent ++ fields e.
Proof. unfold sent_fields. rewrite flat_map_app. simpl. by rewrite app_nil_r. Qed.

Lemma fields_channel_field channel_name output embed :
  fields (channel_field channel_name output embed)
  = fields embed ++ [listing channel_name output].
Proof. done. Qed.

(** The inner loop, when every player is a member: the fields it adds for
    the channel hold, piece by piece, the output it was given followed by
    the descriptions of the games. *)
Lemma list_channel_games_ok channel_name entries :
  ∀ count output embed total_len sent texts,
    game_texts ctx entries count = Some texts →
    ∃ output' embed' total_len' sent' parts,
      list_channel_games ctx channel_name entries count output embed total_len sent
      = inr (output', embed', total_len', sent') ∧
      sent_fields sent' ++ fields embed'
      = sent_fields sent ++ fields embed ++ (listing channel_name <$> parts) ∧
      join parts +:+ output' = output +:+ join texts.
Proof.
  induction entries as [|[game_name game] entries IH];
    intros count output embed total_len sent texts Htexts.
  - simpl in Htexts. injection Htexts as <-.
    exists output, embed, total_len, sent, []. simpl.
    by rewrite !app_nil_r, string_app_nil_r.
  - cbn [game_texts list_channel_games] in *.
    destruct (get_member ctx (Game.player_black_id game)) as [black|]; [|done].
    destruct (get_member ctx (Game.player_white_id game)) as [white|]; [|done].
    destruct (game_texts ctx entries (count + 1)) as [rest|] eqn:Hrest; [|done].
    injection Htexts as <-. cbv zeta.
    set (text := current_game (count + 1) game_name game black white).
    case_bool_decide.
    + destruct (IH (count + 1) text (new_embed "Chess" "Chess Game List - Continued")
                  (String.length text)
                  (sent ++ [SendEmbed (channel_field channel_name output embed)])
                  rest Hrest)
        as (output' & embed' & total_len' & sent' & parts & -> & Hfields & Hjoin).
      exists output', embed', total_len', sent', (output :: parts).
      split; [done|]. split.
      * rewrite Hfields, sent_fields_snoc, fields_channel_field. simpl.
        by rewrite <- !app_assoc.
      * cbn [join foldr]. fold (join parts). fold (join rest).
        by rewrite string_app_assoc, Hjoin.
    + destruct (IH (count + 1) (output +:+ text) embed
                  (total_len + String.length text) sent rest Hrest)
        as (output' & embed' & total_len' & sent' & parts & -> & Hfields & Hjoin).
      exists output', embed', total_len', sent', parts.
      split; [done|]. split; [done|].
      cbn [join foldr]. fold (join rest). by rewrite Hjoin, string_app_assoc.
Qed.

(** The inner loop, when a player of one of the games is not a member. *)
Lemma list_channel_games_fails channel_name entries :
  ∀ count output embed total_len sent,
    game_texts ctx entries count = None →
    ∃ sent',
      list_channel_games ctx channel_name entries count output embed total_len sent
      = inl (AttributeError, sent').
Proof.
  induction entries as [|[game_name game] entries IH];
    intros count output embed total_len sent Htexts; [done|].
  cbn [game_texts list_channel_games] in *.
  destruct (get_member ctx (Game.player_black_id game)) as [black|]; [|eauto].
  destruct (get_member ctx (Game.player_white_id game)) as [white|]; [|eauto].
  destruct (game_texts ctx entries (count + 1)) as [rest|] eqn:Hrest; [done|].
  cbv zeta. case_bool_decide; by apply IH.
Qed.

Lemma listed_channels_cons c channels config :
  listed_channels items (c :: channels) config
  = match _get_games config c.1 with
    | Some games =>
        if bool_decide (size games = 0) then listed_channels items channels config
        else (c.2, items games) :: listed_channels items channels config
    | None => listed_channels items channels config
    end.
Proof.
  unfold listed_channels. simpl.
  destruct (_get_games config c.1) as [games|]; [|done]. by case_bool_decide.
Qed.

(** The outer loop, when every player of every listed game is a member. *)
Lemma list_channels_ok channels config :
  ∀ no_games embed total_len sent texts,
    listed_texts ctx (listed_channels items channels config) = Some texts →
    ∃ sent' parts,
      list_channels ctx items channels config no_games embed total_len sent
      = Returned sent' ∧
      Forall2 (λ t p, p.1 = t.1 ∧ join p.2 = join t.2) texts parts ∧
      sent_fields sent'
      = sent_fields sent ++ fields embed ++
        flat_map (λ p, listing p.1 <$> p.2) parts ++
        (if no_games && bool_decide (texts = []) then [no_games_available] else []).
Proof.
  induction channels as [|[channel_id channel_name] channels IH];
    intros no_games embed total_len sent texts Htexts.
  - injection Htexts as <-. eexists _, []. split; [done|]. split; [constructor|].
    rewrite sent_fields_snoc. simpl. destruct no_games; simpl; [done|].
    by rewrite app_nil_r.
  - rewrite listed_channels_cons in Htexts. cbn [list_channels fst snd] in *.
    destruct (_get_games config channel_id) as [games|]; [|by apply IH].
    case_bool_decide; [by apply IH|].
    unfold listed_texts in Htexts. cbn [mapM fst snd] in Htexts.
    destruct (game_texts ctx (items games) 0) as [here|] eqn:Hhere; [|done].
    simpl in Htexts.
    destruct (mapM _ (listed_channels items channels config)) as [rest|] eqn:Hrest;
      [|done].
    injection Htexts as <-.
    destruct (list_channel_games_ok channel_name (items games) 0 EmptyString
                embed total_len sent here Hhere)
      as (output' & embed' & total_len' & sent1 & parts1 & -> & Hfields & Hjoin).
    destruct (IH false (channel_field channel_name output' embed') total_len' sent1
                rest Hrest)
      as (sent' & parts & -> & Hparts & Hsent).
    exists sent', ((channel_name, parts1 ++ [output']) :: parts).
    split; [done|]. split.
    + constructor; [|done]. split; [done|]. simpl.
      rewrite join_app. cbn [join foldr]. by rewrite string_app_nil_r, Hjoin.
    + rewrite Hsent, fields_channel_field, andb_false_r, andb_false_l. simpl.
      rewrite fmap_app. simpl.
      rewrite (app_assoc (sent_fields sent1)), (app_assoc (sent_fields sent1)), Hfields.
      by rewrite <- !app_assoc.
Qed.

(** The outer loop, when some listed game has a player who is not a member. *)
Lemma list_channels_fails channels config :
  ∀ no_games embed total_len sent,
    listed_texts ctx (listed_channels items channels config) = None →
    ∃ sent',
      list_channels ctx items channels config no_games embed total_len sent
      = Raised AttributeError sent'.
Proof.
  induction channels as [|[channel_id channel_name] channels IH];
    intros no_games embed total_len sent Htexts; [done|].
  rewrite listed_channels_cons in Htexts. cbn [list_channels fst snd] in *.
  destruct (_get_games config channel_id) as [games|]; [|by apply IH].
  case_bool_decide; [by apply IH|].
  unfold listed_texts in Htexts. cbn [mapM fst snd] in Htexts.
  destruct (game_texts ctx (items games) 0) as [here|] eqn:Hhere.
  - simpl in Htexts.
    destruct (mapM _ (listed_channels items channels config)) as [rest|] eqn:Hrest;
      [done|].
    destruct (list_channel_games_ok channel_name (items games) 0 EmptyString
                embed total_len sent here Hhere)
      as (output' & embed' & total_len' & sent1 & parts1 & -> & _).
    by apply IH.
  - destruct (list_channel_games_fails channel_name (items games) 0 EmptyString
                embed total_len sent Hhere) as [sent' ->].
    eauto.
Qed.

(** X11.  When no channel of the guild holds a game (nothing was ever saved
    there, or every game that was has ended), [chess list] sends a single
    embed whose only field is "No Games Available". *)
Theorem list_games_without_games channels config :
  listed_channels items channels config = [] →
  list_games ctx items channels config
  = Returned [SendEmbed
      (add_field "No Games Available" "You can start a new game with [p]chess start"
         (new_embed "Chess" "Chess Game List"))].
Proof.
  intros Hnone.
  assert (∀ sent embed total_len,
    list_channels ctx items channels config true embed total_len sent
    = Returned (sent ++ [SendEmbed
        (add_field "No Games Available" "You can start a new game with [p]chess start"
           embed)])) as Hloop; [|unfold list_games; cbv zeta; by rewrite Hloop].
  induction channels as [|[channel_id channel_name] channels IH]; intros; [done|].
  rewrite listed_channels_cons in Hnone. cbn [list_channels fst snd] in *.
  destruct (_get_games config channel_id) as [games|]; [|by apply IH].
  case_bool_decide; [by apply IH|done].
Qed.

(** X12.  When every player of every saved game is a member of the guild,
    [chess list] lists every game of every channel of the guild, once and
    in order: the fields of the embeds it sends are, channel by channel, the
    pieces of that channel's listing, each under the heading "Channel - " and
    the channel's name, and the pieces of a channel put together are the
    descriptions of its games, numbered from 1. *)
Theorem list_games_lists_every_game channels config texts :
  listed_texts ctx (listed_channels items channels config) = Some texts →
  texts ≠ [] →
  ∃ sent parts,
    list_games ctx items channels config = Returned sent ∧
    Forall2 (λ t p, p.1 = t.1 ∧ join p.2 = join t.2) texts parts ∧
    sent_fields sent = flat_map (λ p, listing p.1 <$> p.2) parts.
Proof.
  intros Htexts Hsome. unfold list_games.
  destruct (list_channels_ok channels config true (new_embed "Chess" "Chess Game List")
              (String.length (title (new_embed "Chess" "Chess Game List")) +
               String.length (description (new_embed "Chess" "Chess Game List")))
              [] texts Htexts) as (sent & parts & Hrun & Hparts & Hsent).
  exists sent, parts. split; [done|]. split; [done|].
  rewrite Hsent. simpl. rewrite bool_decide_eq_false_2 by done. by rewrite app_nil_r.
Qed.

(** X13.  One game with a player who has left the guild breaks [chess list]
    for the whole guild: the command dies with [AttributeError] on that
    player's name and the final embed is never sent. *)
Theorem list_games_fails_on_departed_player channels config :
  listed_texts ctx (listed_channels items channels config) = None →
  ∃ sent, list_games ctx items channels config = Raised AttributeError sent.
Proof. intros Htexts. by apply list_channels_fails. Qed.

End Listing.

Section ListingBound.
Import Discord ChessGame.
Context {T : Type} `{!Game.API T} `{!jsonpickle.Pickle T}.
Variable ctx : Context.
Variable items : gmap string T → list (string * T).





End ListingBound.

(** ** More runs in the channel *)

Section MoreRuns.
Import Engine Reference Scenario Discord ChessGame.

Lemma endgame_games : _get_games endgame 7 = Some {[ "game" := shuffled ]}.
Proof. apply get_set_games; [apply pickle_round_trips|apply pickle_never_empty]. Qed.

Lemma endgame_shuffled :
  ({[ "game" := shuffled ]} : gmap string Session) !! "game" = Some shuffled.
Proof. apply lookup_singleton_eq. Qed.

Lemma lobby_listed :
  listed_channels map_to_list guild_channels lobby = [("lobby", [("game", opening)])].
Proof.
  unfold guild_channels. rewrite !listed_channels_cons. cbn [fst snd].
  rewrite lobby_games.
  replace (_get_games lobby 8) with (@None (gmap string Session))
    by (unfold _get_games, lobby, _set_games; by rewrite lookup_insert_ne).
  rewrite bool_decide_eq_false_2 by (by rewrite map_size_singleton).
  by rewrite map_to_list_singleton.
Qed.

Lemma lobby_after_resignation_listed :
  listed_channels map_to_list guild_channels lobby_after_resignation = [].
Proof.
  unfold guild_channels. rewrite !listed_channels_cons. cbn [fst snd].
  rewrite lobby_after_resignation_games.
  replace (_get_games lobby_after_resignation 8) with (@None (gmap string Session))
    by (unfold _get_games, lobby_after_resignation, lobby, _set_games;
        by rewrite !lookup_insert_ne).
  by rewrite bool_decide_eq_true_2 by (by rewrite delete_singleton_eq, map_size_empty).
Qed.

Lemma commands_leave_other_channels_alone_witness :
  8%N ≠ channel (called_by bob) ∧
  (resign (called_by bob) "game" true None lobby).2 !! 8%N = lobby !! 8%N ∧
  (move_piece (called_by bob) "game" "Nf3" lobby).2 !! 8%N = lobby !! 8%N.
Proof.
  assert (8%N ≠ channel (called_by bob)) as Hne by (simpl; lia).
  split; [exact Hne|].
  destruct (commands_leave_other_channels_alone 0 (called_by bob) alice None None
              "game" "Nf3" true None "Fifty moves" lobby 8 Hne)
    as (_ & Hmove & Hresign & _).
  split; [exact Hresign|exact Hmove].
Defined.

Lemma nothing_saved_raises_TypeError_witness :
  ((∅ : Config) !! channel (called_by bob) = None ∨
   (∅ : Config) !! channel (called_by bob) = Some EmptyString) ∧
  move_piece (called_by bob) "game" "Nf3" ∅ = (Raised TypeError [], ∅) ∧
  claim_draw (called_by bob) "game" "Fifty moves" ∅ = (Raised TypeError [], ∅).
Proof.
  assert ((∅ : Config) !! channel (called_by bob) = None ∨
          (∅ : Config) !! channel (called_by bob) = Some EmptyString) as Hnone
    by (left; reflexivity).
  split; [exact Hnone|].
  destruct (nothing_saved_raises_TypeError 0 (called_by bob) alice None None opening
              "game" "Nf3" true None "Fifty moves" ∅ Hnone)
    as (Hmove & _ & Hclaim & _).
  split; [exact Hmove|exact Hclaim].
Defined.

Lemma saved_channel_stays_readable_witness :
  jsonpickle.never_empty (T := Session) ∧
  is_Some (_get_games lobby 7) ∧
  is_Some (_get_games (resign (called_by bob) "game" true None lobby).2 7).
Proof.
  assert (is_Some (_get_games lobby 7)) as Hsome by (rewrite lobby_games; eauto).
  split; [exact pickle_never_empty|]. split; [exact Hsome|].
  destruct (saved_channel_stays_readable 0 (called_by bob) alice None None
              "game" "Nf3" true None "Fifty moves" lobby 7 pickle_never_empty Hsome)
    as (_ & _ & Hresign & _).
  exact Hresign.
Defined.

Lemma accepted_move_updates_one_game_witness :
  _get_games lobby (channel (called_by bob)) = Some {[ "game" := opening ]} ∧
  ({[ "game" := opening ]} : gmap string Session) !! "game" = Some opening ∧
  is_author (called_by bob) (acting_player (called_by bob) opening) = true ∧
  Game.move_piece opening "Nf3"
  = (Some (false, "<@2> (White) 1. Nf3"), played opening ["Nf3"]) ∧
  ∃ embed,
    move_piece (called_by bob) "game" "Nf3" lobby
    = (Returned [_display_board embed (played opening ["Nf3"])],
       _set_games lobby (channel (called_by bob))
         (<["game" := played opening ["Nf3"]]> {[ "game" := opening ]})) ∧
    has_field "Game Over!" embed = false.
Proof.
  assert (is_author (called_by bob) (acting_player (called_by bob) opening) = true)
    as Hturn by reflexivity.
  assert (Game.move_piece opening "Nf3"
          = (Some (false, "<@2> (White) 1. Nf3"), played opening ["Nf3"]))
    as Hmove by reflexivity.
  split; [exact lobby_games|]. split; [exact lobby_opening|].
  split; [exact Hturn|]. split; [exact Hmove|].
  destruct (accepted_move_updates_one_game (called_by bob) "game" "Nf3" lobby
              {[ "game" := opening ]} opening false "<@2> (White) 1. Nf3"
              (played opening ["Nf3"]) lobby_games lobby_opening Hturn Hmove)
    as (embed & Hrun & Hover & _).
  exists embed. split; [exact Hrun|exact Hover].
Defined.

Lemma claim_after_move_is_granted_witness :
  jsonpickle.round_trips (T := Session) ∧
  jsonpickle.never_empty (T := Session) ∧
  _get_games endgame (channel (called_by alice)) = Some {[ "game" := shuffled ]} ∧
  ({[ "game" := shuffled ]} : gmap string Session) !! "game" = Some shuffled ∧
  is_author (called_by alice) (acting_player (called_by alice) shuffled) = true ∧
  Game.move_piece shuffled "Nf6"
  = (Some (false, "<@1> (Black) 100. Nf6"), played shuffled ["Nf6"]) ∧
  claim_flag "Fifty moves" (played shuffled ["Nf6"]) = true ∧
  channel (called_by carol) = channel (called_by alice) ∧
  saved_game
    (claim_draw (called_by carol) "game" "Fifty moves"
       (move_piece (called_by alice) "game" "Nf6" endgame).2).2
    (channel (called_by alice)) "game" = None.
Proof.
  split; [exact pickle_round_trips|]. split; [exact pickle_never_empty|].
  assert (is_author (called_by alice) (acting_player (called_by alice) shuffled) = true)
    as Hturn by reflexivity.
  assert (Game.move_piece shuffled "Nf6"
          = (Some (false, "<@1> (Black) 100. Nf6"), played shuffled ["Nf6"]))
    as Hmove by reflexivity.
  assert (claim_flag "Fifty moves" (played shuffled ["Nf6"]) = true)
    as Hflag by reflexivity.
  split; [exact endgame_games|]. split; [exact endgame_shuffled|].
  split; [exact Hturn|]. split; [exact Hmove|]. split; [exact Hflag|].
  split; [reflexivity|].
  destruct (claim_after_move_is_granted (called_by alice) (called_by carol) "game" "Nf6"
              "Fifty moves" endgame {[ "game" := shuffled ]} shuffled
              "<@1> (Black) 100. Nf6" (played shuffled ["Nf6"])
              pickle_round_trips pickle_never_empty endgame_games endgame_shuffled
              Hturn Hmove Hflag eq_refl) as (_ & Hgone & _).
  exact Hgone.
Defined.

Lemma draw_offer_needs_player_and_acceptance_witness :
  _get_games lobby (channel (called_by alice)) = Some {[ "game" := opening ]} ∧
  ({[ "game" := opening ]} : gmap string Session) !! "game" = Some opening ∧
  (id (author (called_by alice)) = Game.player_black_id opening ∨
   id (author (called_by alice)) = Game.player_white_id opening) ∧
  (by_agreement (called_by alice) "game" (Some true) lobby).2
  = _set_games lobby (channel (called_by alice)) (delete "game" {[ "game" := opening ]}).
Proof.
  assert (id (author (called_by alice)) = Game.player_black_id opening ∨
          id (author (called_by alice)) = Game.player_white_id opening) as Hplayer
    by (left; reflexivity).
  split; [exact lobby_games|]. split; [exact lobby_opening|]. split; [exact Hplayer|].
  destruct (draw_offer_needs_player_and_acceptance (called_by alice) "game" (Some true)
              lobby {[ "game" := opening ]} opening lobby_games lobby_opening)
    as (_ & _ & Haccepted).
  exact (proj1 (Haccepted Hplayer eq_refl)).
Defined.

Lemma resign_by_outsider_changes_nothing_witness :
  _get_games lobby (channel (called_by carol)) = Some {[ "game" := opening ]} ∧
  ({[ "game" := opening ]} : gmap string Session) !! "game" = Some opening ∧
  is_author (called_by carol)
    (get_member (called_by carol) (Game.player_white_id opening)) = false ∧
  is_author (called_by carol)
    (get_member (called_by carol) (Game.player_black_id opening)) = false ∧
  (resign (called_by carol) "game" true None lobby).2 = lobby.
Proof.
  assert (is_author (called_by carol)
            (get_member (called_by carol) (Game.player_white_id opening)) = false)
    as Hwhite by reflexivity.
  assert (is_author (called_by carol)
            (get_member (called_by carol) (Game.player_black_id opening)) = false)
    as Hblack by reflexivity.
  split; [exact lobby_games|]. split; [exact lobby_opening|].
  split; [exact Hwhite|]. split; [exact Hblack|].
  exact (proj1 (resign_by_outsider_changes_nothing (called_by carol) "game" true None
                  lobby {[ "game" := opening ]} opening
                  lobby_games lobby_opening Hwhite Hblack)).
Defined.

Lemma resign_fails_when_opponent_left_witness :
  _get_games lobby (channel bob_alone) = Some {[ "game" := opening ]} ∧
  ({[ "game" := opening ]} : gmap string Session) !! "game" = Some opening ∧
  is_author bob_alone (get_member bob_alone (Game.player_white_id opening)) = true ∧
  get_member bob_alone (Game.player_black_id opening) = None ∧
  resign bob_alone "game" true None lobby = (Raised AttributeError [], lobby).
Proof.
  assert (is_author bob_alone (get_member bob_alone (Game.player_white_id opening)) = true)
    as Hme by reflexivity.
  assert (get_member bob_alone (Game.player_black_id opening) = None)
    as Hgone by reflexivity.
  split; [exact lobby_games|]. split; [exact lobby_opening|].
  split; [exact Hme|]. split; [exact Hgone|].
  exact (resign_fails_when_opponent_left bob_alone "game" true None lobby
           {[ "game" := opening ]} opening lobby_games lobby_opening
           (or_introl (conj Hme Hgone)) (or_introl eq_refl)).
Defined.

Lemma started_game_is_saved_under_announced_name_witness :
  jsonpickle.round_trips (T := Session) ∧
  jsonpickle.never_empty (T := Session) ∧
  member_eq (author (called_by alice)) bob = false ∧
  Game.init (id (author (called_by alice))) (id bob) None = Some opening ∧
  size (default ∅ (_get_games lobby (channel (called_by alice)))) ≤ 1 ∧
  ∃ fresh,
    saved_game lobby (channel (called_by alice)) fresh = None ∧
    saved_game (start_game 1 (called_by alice) bob None None lobby).2
      (channel (called_by alice)) fresh = Some opening.
Proof.
  assert (member_eq (author (called_by alice)) bob = false) as Hne by reflexivity.
  assert (Game.init (id (author (called_by alice))) (id bob) None = Some opening)
    as Hinit by reflexivity.
  assert (size (default ∅ (_get_games lobby (channel (called_by alice)))) ≤ 1) as Hsize.
  { cbn [channel called_by]. rewrite lobby_games. simpl. by rewrite map_size_singleton. }
  split; [exact pickle_round_trips|]. split; [exact pickle_never_empty|].
  split; [exact Hne|]. split; [exact Hinit|]. split; [exact Hsize|].
  destruct (started_game_is_saved_under_announced_name 1 (called_by alice) bob None None
              lobby opening pickle_round_trips pickle_never_empty Hne Hinit Hsize)
    as (fresh & embed & _ & _ & Hfree & Hsaved & _).
  exists fresh. split; [exact Hfree|exact Hsaved].
Defined.

Lemma finished_game_name_can_be_reused_witness :
  jsonpickle.round_trips (T := Session) ∧
  jsonpickle.never_empty (T := Session) ∧
  ends_game (channel (called_by alice)) "game" lobby lobby_after_resignation ∧
  truthy "game" = true ∧
  member_eq (author (called_by alice)) bob = false ∧
  Game.init (id (author (called_by alice))) (id bob) None = Some opening ∧
  saved_game
    (start_game 0 (called_by alice) bob (Some "game") None lobby_after_resignation).2
    (channel (called_by alice)) "game" = Some opening.
Proof.
  assert (member_eq (author (called_by alice)) bob = false) as Hne by reflexivity.
  assert (Game.init (id (author (called_by alice))) (id bob) None = Some opening)
    as Hinit by reflexivity.
  split; [exact pickle_round_trips|]. split; [exact pickle_never_empty|].
  split; [exact bob_resigning_ends_game|]. split; [reflexivity|].
  split; [exact Hne|]. split; [exact Hinit|].
  exact (proj2 (finished_game_name_can_be_reused 0 (called_by alice) bob "game" None
                  lobby lobby_after_resignation opening
                  pickle_round_trips pickle_never_empty bob_resigning_ends_game
                  eq_refl Hne Hinit)).
Defined.

Lemma list_games_without_games_witness :
  listed_channels map_to_list guild_channels lobby_after_resignation = [] ∧
  list_games (called_by carol) map_to_list guild_channels lobby_after_resignation
  = Returned [SendEmbed
      (add_field "No Games Available" "You can start a new game with [p]chess start"
         (new_embed "Chess" "Chess Game List"))].
Proof.
  split; [exact lobby_after_resignation_listed|].
  exact (list_games_without_games (called_by carol) map_to_list guild_channels
           lobby_after_resignation lobby_after_resignation_listed).
Defined.

Lemma lobby_texts :
  listed_texts (called_by carol) (listed_channels map_to_list guild_channels lobby)
  = Some [("lobby", [current_game 1 "game" opening alice bob])].
Proof. rewrite lobby_listed. reflexivity. Qed.

Lemma list_games_lists_every_game_witness :
  listed_texts (called_by carol) (listed_channels map_to_list guild_channels lobby)
  = Some [("lobby", [current_game 1 "game" opening alice bob])] ∧
  [("lobby", [current_game 1 "game" opening alice bob])] ≠ [] ∧
  ∃ sent parts,
    list_games (called_by carol) map_to_list guild_channels lobby = Returned sent ∧
    Forall2 (λ t p, p.1 = t.1 ∧ join p.2 = join t.2)
      [("lobby", [current_game 1 "game" opening alice bob])] parts ∧
    sent_fields sent = flat_map (λ p, listing p.1 <$> p.2) parts.
Proof.
  assert ([("lobby", [current_game 1 "game" opening alice bob])] ≠ []) as Hsome
    by discriminate.
  split; [exact lobby_texts|]. split; [exact Hsome|].
  exact (list_games_lists_every_game (called_by carol) map_to_list guild_channels lobby
           _ lobby_texts Hsome).
Defined.

Lemma list_games_fails_on_departed_player_witness :
  listed_texts bob_alone (listed_channels map_to_list guild_channels lobby) = None ∧
  ∃ sent, list_games bob_alone map_to_list guild_channels lobby
          = Raised AttributeError sent.
Proof.
  assert (listed_texts bob_alone (listed_channels map_to_list guild_channels lobby) = None)
    as Hnone by (rewrite lobby_listed; reflexivity).
  split; [exact Hnone|].
  exact (list_games_fails_on_departed_player bob_alone map_to_list guild_channels lobby
           Hnone).
Defined.


End MoreRuns.
